(** * Diameter client scripts: framing, credit-control sequencing, codec

    A shallow embedding of the protocol-relevant code of the repository:
    - [Framing]: [recv_one_diameter] of
      [my_task/send_and_receive_ccr_i_ccr_u_ccr_t.py],
      [my_task/send_and_terminate_ccr_when_data_exhausted.py] and
      [my_task/send_data_ccr.py] (the same text in the three), over a model
      of a blocking stream socket;
    - [constants], [Codec], [Gy]: what the scripts use of the [diameter]
      package, which is not among the sources;
    - [SendCer], [Script1], [Script2]: [build_cer] of [my_task/send_cer.py]
      and the two credit-control scripts, run in a world made of a socket,
      the messages sent and a clock;
    - [Samples]: concrete streams and worlds;
    - [Frames], [Views]: the frames of a stream and views of the requests
      built, for the statements about them;
    - [Hexdump]: [hexdump] of [my_task/binary_hex_convertion.py];
    - the proofs, by component. *)

From Stdlib Require Import String Ascii.
From Stdlib.Strings Require Import Byte.
From Stdlib Require Import ZArith List Lia Bool Sorted.
Import ListNotations.
Open Scope Z_scope.

(** Python [bytes]. *)
Definition bytes := list byte.

(** [len(b)] as a Python integer. *)
Definition len {A} (l : list A) : Z := Z.of_nat (length l).

(** [b[i:j]] for [0 <= i <= j]. *)
Definition slice {A} (i j : nat) (l : list A) : list A :=
  firstn (j - i) (skipn i l).

(** [int.from_bytes(b, "big")]. *)
Definition int_from_bytes_big (b : bytes) : Z :=
  fold_left (fun acc x => acc * 256 + Z.of_N (Byte.to_N x)) b 0.

(** Outcome of running a piece of the scripts: a value, a raised exception,
    or exhaustion of the fuel that bounds the model's loops. *)
Inductive exn : Type :=
| ConnectionError (msg : string)
| MessageError
| AvpEncodeError.

Inductive outcome (A : Type) : Type :=
| Return (a : A)
| Raise (e : exn)
| OutOfFuel.
Arguments Return {A} a.
Arguments Raise {A} e.
Arguments OutOfFuel {A}.

Module Framing.

(** ** The socket *)

(** A connected stream socket, seen from the reader: the chunks the transport
    will hand over, in order, and the sizes asked for by the [recv] calls made
    so far (most recent first).  An empty list of chunks, or an empty chunk at
    the head, is the end of the stream: [recv] then returns the empty bytes.
    A [recv] that times out is not modelled. *)
Record socket : Type := mkSocket {
  pending : list bytes;
  recv_log : list Z
}.

(** [sock.recv(n)], [n > 0]: at most [n] bytes of the chunk at the head; what
    is left of that chunk stays at the head. *)
Definition recv (n : Z) (s : socket) : bytes * socket :=
  match pending s with
  | [] => ([], mkSocket [] (n :: recv_log s))
  | [] :: rest => ([], mkSocket ([] :: rest) (n :: recv_log s))
  | c :: rest =>
      let k := Z.to_nat n in
      (firstn k c,
       mkSocket (match skipn k c with [] => rest | r => r :: rest end)
                (n :: recv_log s))
  end.

(** The bytes a socket delivers before its stream ends. *)
Fixpoint delivered_of (p : list bytes) : bytes :=
  match p with
  | [] => []
  | [] :: _ => []
  | c :: rest => c ++ delivered_of rest
  end.

Definition delivered (s : socket) : bytes := delivered_of (pending s).

(** ** [recv_one_diameter] *)

(** The two loops of [recv_one_diameter] have one shape:
<<
    buf = b""
    while len(buf) < target:
        chunk = sock.recv(target - len(buf))
        if not chunk:
            raise ConnectionError(msg)
        buf += chunk
>>
    [fuel] bounds the number of iterations. *)
Fixpoint recv_loop (fuel : nat) (msg : string) (target : Z)
                   (buf : bytes) (s : socket) : outcome (bytes * socket) :=
  if len buf <? target then
    match fuel with
    | O => OutOfFuel
    | S fuel' =>
        let '(chunk, s') := recv (target - len buf) s in
        match chunk with
        | [] => Raise (ConnectionError msg)
        | _ :: _ => recv_loop fuel' msg target (buf ++ chunk) s'
        end
    end
  else Return (buf, s).

Definition header_closed : string := "Socket closed while reading Diameter header".
Definition body_closed : string := "Socket closed while reading Diameter body".

(** The header loop of [recv_one_diameter]. *)
Definition recv_header (s : socket) : outcome (bytes * socket) :=
  recv_loop 20 header_closed 20 [] s.

(** [total_len = int.from_bytes(header[1:4], "big")]. *)
Definition total_len (header : bytes) : Z :=
  int_from_bytes_big (slice 1 4 header).

(** The body loop of [recv_one_diameter]; every iteration adds at least one
    byte, so [total_len - 20] iterations are enough. *)
Definition recv_body (total : Z) (s : socket) : outcome (bytes * socket) :=
  recv_loop (Z.to_nat (total - 20)) body_closed (total - 20) [] s.

Definition recv_one_diameter (s : socket) : outcome (bytes * socket) :=
  match recv_header s with
  | Return (header, s1) =>
      match recv_body (total_len header) s1 with
      | Return (body, s2) => Return (header ++ body, s2)
      | Raise e => Raise e
      | OutOfFuel => OutOfFuel
      end
  | Raise e => Raise e
  | OutOfFuel => OutOfFuel
  end.

(** A stream is well formed when the transport never hands over an empty
    chunk. *)
Definition nonempty_chunks (p : list bytes) : Prop :=
  Forall (fun c => c <> []) p.

(** The stream ends before a whole message was delivered. *)
Definition closes_early (d : bytes) : Prop :=
  len d < 20 \/ (20 <= len d /\ len d < total_len d).

End Framing.

(** ** Constants *)

(** Modelled from the spec: the module [diameter.message.constants] is not
    among the sources; the names are the ones the scripts import and the
    values the ones the scripts' comments give (application 4, FINAL 2,
    QUOTA_EXHAUSTED 3, Reporting-Reason 872) or the Diameter base protocol
    the spec points to assigns. *)
Module constants.
Definition APP_DIAMETER_COMMON_MESSAGES : Z := 0.
Definition APP_DIAMETER_CREDIT_CONTROL_APPLICATION : Z := 4.
Definition E_INBAND_SECURITY_ID_NO_INBAND_SECURITY : Z := 0.
Definition E_CC_REQUEST_TYPE_INITIAL_REQUEST : Z := 1.
Definition E_CC_REQUEST_TYPE_UPDATE_REQUEST : Z := 2.
Definition E_CC_REQUEST_TYPE_TERMINATION_REQUEST : Z := 3.
Definition E_SUBSCRIPTION_ID_TYPE_END_USER_E164 : Z := 0.
Definition E_SUBSCRIPTION_ID_TYPE_END_USER_IMSI : Z := 1.
Definition E_SUBSCRIPTION_ID_TYPE_END_USER_NAI : Z := 3.
Definition VENDOR_TGPP : Z := 10415.
Definition AVP_HOST_IP_ADDRESS : Z := 257.
Definition AVP_AUTH_APPLICATION_ID : Z := 258.
Definition AVP_ORIGIN_HOST : Z := 264.
Definition AVP_SUPPORTED_VENDOR_ID : Z := 265.
Definition AVP_VENDOR_ID : Z := 266.
Definition AVP_PRODUCT_NAME : Z := 269.
Definition AVP_ORIGIN_STATE_ID : Z := 278.
Definition AVP_ORIGIN_REALM : Z := 296.
Definition AVP_INBAND_SECURITY_ID : Z := 299.
Definition AVP_MULTIPLE_SERVICES_INDICATOR : Z := 455.
Definition AVP_TGPP_3GPP_PDP_TYPE : Z := 3.
Definition AVP_TGPP_3GPP_NSAPI : Z := 10.
Definition AVP_TGPP_3GPP_RAT_TYPE : Z := 21.
Definition AVP_TGPP_3GPP_REPORTING_REASON : Z := 872.
Definition AVP_TGPP_SERVICE_INFORMATION : Z := 873.
Definition AVP_TGPP_PS_INFORMATION : Z := 874.
Definition AVP_TGPP_PDP_ADDRESS : Z := 1227.
(** Reporting-Reason values the scripts name in their comments. *)
Definition REPORTING_REASON_FINAL : Z := 2.
Definition REPORTING_REASON_QUOTA_EXHAUSTED : Z := 3.
End constants.

(** ** Message codec *)

Module Codec.

(** Modelled from the spec: the error kinds of the codec of the [diameter]
    package, which is not among the sources (section 7). *)
Inductive error : Type :=
| MalformedAvp
| TruncatedMessage
| MalformedMessage.

Inductive result (A : Type) : Type :=
| Ok (a : A)
| Err (e : error).
Arguments Ok {A} a.
Arguments Err {A} e.

Definition byte_of_Z (z : Z) : byte :=
  match Byte.of_N (Z.to_N (z mod 256)) with
  | Some b => b
  | None => x00
  end.

Definition Z_of_byte (b : byte) : Z := Z.of_N (Byte.to_N b).

(** Fixed-width big-endian integer, most significant byte first. *)
Fixpoint int_to_bytes_big (width : nat) (n : Z) : bytes :=
  match width with
  | O => []
  | S w => int_to_bytes_big w (n / 256) ++ [byte_of_Z n]
  end.

(** Modelled from the spec: the class [Avp] of the [diameter] package is not
    among the sources (section 3).  An AVP as it is on the wire: the value is
    its encoded bytes, a grouped AVP's value being the concatenated encodings
    of its children. *)
Record Avp : Type := mkAvp {
  code : Z;
  vendor_id : option Z;
  is_mandatory : bool;
  is_protected : bool;
  payload : bytes
}.

Definition is_vendor_specific (a : Avp) : bool :=
  match vendor_id a with Some _ => true | None => false end.

Definition avp_header_size (a : Avp) : Z :=
  if is_vendor_specific a then 12 else 8.

(** Flags: bit 0 (the most significant) vendor-specific, bit 1 mandatory,
    bit 2 protected. *)
Definition avp_flags (a : Avp) : Z :=
  (if is_vendor_specific a then 128 else 0)
  + (if is_mandatory a then 64 else 0)
  + (if is_protected a then 32 else 0).

(** The length field: header and value, padding excluded. *)
Definition avp_length (a : Avp) : Z := avp_header_size a + len (payload a).

Definition padding (n : nat) : bytes := repeat x00 ((4 - n mod 4) mod 4).

(** Modelled from the spec: the AVP encoder of the [diameter] package is not
    among the sources (section 4.1): 4-byte code, 1-byte flags, 3-byte
    length, the vendor id when there is one, the value, zero padding to a
    4-byte boundary. *)
Definition encode_avp (a : Avp) : bytes :=
  int_to_bytes_big 4 (code a)
  ++ [byte_of_Z (avp_flags a)]
  ++ int_to_bytes_big 3 (avp_length a)
  ++ match vendor_id a with
     | Some v => int_to_bytes_big 4 v
     | None => []
     end
  ++ payload a
  ++ padding (length (payload a)).

Definition encode_avps (l : list Avp) : bytes := concat (map encode_avp l).

(** Modelled from the spec: the AVP decoder of the [diameter] package is not
    among the sources (section 4.1).  [decode(bytes, offset)], the offset
    already dropped: the AVP and the bytes after it (padding consumed); a
    declared length that the buffer does not hold is [MalformedAvp]. *)
Definition decode_avp (b : bytes) : result (Avp * bytes) :=
  if len b <? 8 then Err MalformedAvp else
  let code := int_from_bytes_big (slice 0 4 b) in
  let flags := Z_of_byte (nth 4 b x00) in
  let length_ := int_from_bytes_big (slice 5 8 b) in
  let vendor := Z.testbit flags 7 in
  let hdr := if vendor then 12 else 8 in
  if (length_ <? hdr) || (len b <? length_) then Err MalformedAvp else
  let a := {| code := code;
              vendor_id := if vendor
                           then Some (int_from_bytes_big (slice 8 12 b))
                           else None;
              is_mandatory := Z.testbit flags 6;
              is_protected := Z.testbit flags 5;
              payload := slice (Z.to_nat hdr) (Z.to_nat length_) b |} in
  let padded := (Z.to_nat length_ + (4 - Z.to_nat length_ mod 4) mod 4)%nat in
  Ok (a, skipn padded b).

(** AVPs are decoded one after the other until the buffer is used up; every
    AVP takes at least 8 bytes, so [length b] rounds are enough. *)
Fixpoint decode_avps (fuel : nat) (b : bytes) : result (list Avp) :=
  match b with
  | [] => Ok []
  | _ :: _ =>
      match fuel with
      | O => Err MalformedAvp
      | S fuel' =>
          match decode_avp b with
          | Err e => Err e
          | Ok (a, rest) =>
              match decode_avps fuel' rest with
              | Err e => Err e
              | Ok l => Ok (a :: l)
              end
          end
      end
  end.

(** The decoded children of a grouped AVP. *)
Definition grouped_value (a : Avp) : result (list Avp) :=
  decode_avps (length (payload a)) (payload a).

(** Modelled from the spec: the message header of the [diameter] package is
    not among the sources (section 3). *)
Record MessageHeader : Type := mkHeader {
  version : Z;
  length_ : Z;
  is_request : bool;
  is_proxyable : bool;
  is_error : bool;
  is_retransmit : bool;
  command_code : Z;
  application_id : Z;
  hop_by_hop_identifier : Z;
  end_to_end_identifier : Z
}.

Definition with_length (h : MessageHeader) (n : Z) : MessageHeader :=
  {| version := version h; length_ := n;
     is_request := is_request h; is_proxyable := is_proxyable h;
     is_error := is_error h; is_retransmit := is_retransmit h;
     command_code := command_code h; application_id := application_id h;
     hop_by_hop_identifier := hop_by_hop_identifier h;
     end_to_end_identifier := end_to_end_identifier h |}.

Definition header_flags (h : MessageHeader) : Z :=
  (if is_request h then 128 else 0)
  + (if is_proxyable h then 64 else 0)
  + (if is_error h then 32 else 0)
  + (if is_retransmit h then 16 else 0).

(** Modelled from the spec: the header encoder of the [diameter] package is
    not among the sources (section 6).  The 20-byte header: version, 3-byte
    length, flags, 3-byte command code, application id, hop-by-hop id,
    end-to-end id. *)
Definition encode_header (h : MessageHeader) : bytes :=
  [byte_of_Z (version h)]
  ++ int_to_bytes_big 3 (length_ h)
  ++ [byte_of_Z (header_flags h)]
  ++ int_to_bytes_big 3 (command_code h)
  ++ int_to_bytes_big 4 (application_id h)
  ++ int_to_bytes_big 4 (hop_by_hop_identifier h)
  ++ int_to_bytes_big 4 (end_to_end_identifier h).

Definition decode_header (b : bytes) : MessageHeader :=
  let flags := Z_of_byte (nth 4 b x00) in
  {| version := Z_of_byte (nth 0 b x00);
     length_ := int_from_bytes_big (slice 1 4 b);
     is_request := Z.testbit flags 7;
     is_proxyable := Z.testbit flags 6;
     is_error := Z.testbit flags 5;
     is_retransmit := Z.testbit flags 4;
     command_code := int_from_bytes_big (slice 5 8 b);
     application_id := int_from_bytes_big (slice 8 12 b);
     hop_by_hop_identifier := int_from_bytes_big (slice 12 16 b);
     end_to_end_identifier := int_from_bytes_big (slice 16 20 b) |}.

Record Message : Type := mkMessage {
  header : MessageHeader;
  avps : list Avp
}.

(** Modelled from the spec: [Message.as_bytes] of the [diameter] package is
    not among the sources (section 4.2).  The header's length is computed
    from the total encoded size and recorded in the header, then the header
    is written, followed by the AVPs in the order given.  The result is the
    bytes and the message as [as_bytes] leaves it. *)
Definition as_bytes (m : Message) : bytes * Message :=
  let body := encode_avps (avps m) in
  let h := with_length (header m) (20 + len body) in
  (encode_header h ++ body, {| header := h; avps := avps m |}).

(** Modelled from the spec: [Message.from_bytes] of the [diameter] package
    is not among the sources (section 4.2).  The header, then AVPs until
    [length] bytes are consumed; [TruncatedMessage] when fewer bytes are
    there than the length claims, [MalformedMessage] when an AVP does not fit
    in what the length leaves. *)
Definition from_bytes (b : bytes) : result Message :=
  if len b <? 20 then Err TruncatedMessage else
  let h := decode_header b in
  if len b <? length_ h then Err TruncatedMessage else
  let body := slice 20 (Z.to_nat (length_ h)) b in
  match decode_avps (length body) body with
  | Ok l => Ok {| header := h; avps := l |}
  | Err _ => Err MalformedMessage
  end.

(** *** Typed values and views *)

Definition avp_unsigned32 (c : Z) (v : Z) : Avp :=
  {| code := c; vendor_id := None; is_mandatory := true;
     is_protected := false; payload := int_to_bytes_big 4 v |}.

Definition avp_octets (c : Z) (v : bytes) : Avp :=
  {| code := c; vendor_id := None; is_mandatory := true;
     is_protected := false; payload := v |}.

Definition avp_utf8 (c : Z) (v : string) : Avp :=
  avp_octets c (list_byte_of_string v).

(** An IPv4 address value: the 2-byte address family 1, then the 4 address
    bytes. *)
Definition avp_address (c : Z) (a b c' d : Z) : Avp :=
  avp_octets c (int_to_bytes_big 2 1
                ++ [byte_of_Z a; byte_of_Z b; byte_of_Z c'; byte_of_Z d]).

Definition find_avps (c : Z) (m : Message) : list Avp :=
  filter (fun a => code a =? c) (avps m).

Definition unsigned32_value (a : Avp) : Z := int_from_bytes_big (payload a).

(** A single-valued accessor: the first AVP of that code, if any. *)
Definition get_unsigned32 (c : Z) (m : Message) : option Z :=
  match find_avps c m with
  | a :: _ => Some (unsigned32_value a)
  | [] => None
  end.

(** Modelled from the spec: the typed setters of the [diameter] package are
    not among the sources (section 4.2).  A setter of a single-valued AVP
    replaces the AVP of that code when the message has one and appends
    otherwise. *)
Fixpoint replace_or_append (a : Avp) (l : list Avp) : list Avp :=
  match l with
  | [] => [a]
  | x :: rest =>
      if code x =? code a then a :: rest
      else x :: replace_or_append a rest
  end.

Definition set_avp (a : Avp) (m : Message) : Message :=
  {| header := header m; avps := replace_or_append a (avps m) |}.

(** Modelled from the spec: [Message.append_avp] of the [diameter] package
    is not among the sources (section 4.2): a new occurrence, after the
    others. *)
Definition append_avp (a : Avp) (m : Message) : Message :=
  {| header := header m; avps := avps m ++ [a] |}.

(** *** Capabilities-Exchange-Request *)

Definition CMD_CAPABILITIES_EXCHANGE : Z := 257.

(** Modelled from the spec: the class [CapabilitiesExchangeRequest] of the
    [diameter] package is not among the sources.  A request of command 257 of
    the common application that carries no AVP until one is set or appended:
    everything a CER carries is supplied through the setters (section
    4.2). *)
Definition CapabilitiesExchangeRequest : Message :=
  {| header := {| version := 1; length_ := 0;
                  is_request := true; is_proxyable := false;
                  is_error := false; is_retransmit := false;
                  command_code := CMD_CAPABILITIES_EXCHANGE;
                  application_id := constants.APP_DIAMETER_COMMON_MESSAGES;
                  hop_by_hop_identifier := 0;
                  end_to_end_identifier := 0 |};
     avps := [] |}.

Definition set_origin_host (v : string) :=
  set_avp (avp_utf8 constants.AVP_ORIGIN_HOST v).
Definition set_origin_realm (v : string) :=
  set_avp (avp_utf8 constants.AVP_ORIGIN_REALM v).
Definition set_host_ip_address (a b c d : Z) :=
  set_avp (avp_address constants.AVP_HOST_IP_ADDRESS a b c d).
Definition set_vendor_id (v : Z) :=
  set_avp (avp_unsigned32 constants.AVP_VENDOR_ID v).
Definition set_product_name (v : string) :=
  set_avp (avp_utf8 constants.AVP_PRODUCT_NAME v).
Definition set_origin_state_id (v : Z) :=
  set_avp (avp_unsigned32 constants.AVP_ORIGIN_STATE_ID v).
Definition set_auth_application_id (v : Z) :=
  set_avp (avp_unsigned32 constants.AVP_AUTH_APPLICATION_ID v).
Definition set_inband_security_id (v : Z) :=
  set_avp (avp_unsigned32 constants.AVP_INBAND_SECURITY_ID v).

Definition vendor_id_of (m : Message) : option Z :=
  get_unsigned32 constants.AVP_VENDOR_ID m.
Definition auth_application_id (m : Message) : option Z :=
  get_unsigned32 constants.AVP_AUTH_APPLICATION_ID m.
Definition inband_security_id (m : Message) : option Z :=
  get_unsigned32 constants.AVP_INBAND_SECURITY_ID m.
Definition supported_vendor_id (m : Message) : list Z :=
  map unsigned32_value (find_avps constants.AVP_SUPPORTED_VENDOR_ID m).

End Codec.

(** ** [my_task/send_cer.py] *)

Module SendCer.
Import Codec.

Definition ORIGIN_HOST : string := "mscp05.gpgw-01".
Definition ORIGIN_REALM : string := "worldov.com".
Definition VENDOR_ID : Z := 6527.
Definition PRODUCT_NAME : string := "SR-OS-MG".
Definition ORIGIN_STATE_ID : Z := 1753697272.
Definition SUPPORTED_VENDOR_IDS : list Z := [10415; 5535].
Definition AUTH_APP_ID : Z := 4.

(** [build_cer], up to [cer.as_bytes()]: the seven attribute assignments,
    then one appended Supported-Vendor-Id per element of
    [SUPPORTED_VENDOR_IDS]. *)
Definition build_cer_message : Message :=
  let cer := CapabilitiesExchangeRequest in
  let cer := set_origin_host ORIGIN_HOST cer in
  let cer := set_origin_realm ORIGIN_REALM cer in
  let cer := set_host_ip_address 198 18 153 109 cer in
  let cer := set_vendor_id VENDOR_ID cer in
  let cer := set_product_name PRODUCT_NAME cer in
  let cer := set_origin_state_id ORIGIN_STATE_ID cer in
  let cer := set_auth_application_id AUTH_APP_ID cer in
  fold_left
    (fun cer vid =>
       append_avp (avp_unsigned32 constants.AVP_SUPPORTED_VENDOR_ID vid) cer)
    SUPPORTED_VENDOR_IDS cer.

Definition build_cer : bytes := fst (as_bytes build_cer_message).

End SendCer.

(** ** Credit-control objects *)

Module Gy.

(** Modelled from the spec: the class [Avp] of the [diameter] package is not
    among the sources.  An AVP made by [Avp.new(code, vendor_id=0, value)] is
    modelled by what the scripts put into it: its code, vendor and value, a
    grouped value being the list of its children (section 3). *)
Inductive Avp : Type :=
| mkAvp (code : Z) (vendor_id : Z) (value : avp_value)
with avp_value : Type :=
| VNone
| VInt (n : Z)
| VStr (s : string)
| VBytes (b : bytes)
| VList (l : list Avp).

Definition code (a : Avp) : Z := let 'mkAvp c _ _ := a in c.
Definition vendor_id (a : Avp) : Z := let 'mkAvp _ v _ := a in v.
Definition value (a : Avp) : avp_value := let 'mkAvp _ _ v := a in v.

(** [avp.value = v]. *)
Definition set_value (a : Avp) (v : avp_value) : Avp :=
  mkAvp (code a) (vendor_id a) v.

(** The children of a grouped AVP. *)
Definition children (a : Avp) : list Avp :=
  match value a with VList l => l | _ => [] end.

(** [avp.find_avps]-like search among the children. *)
Definition find (c v : Z) (l : list Avp) : list Avp :=
  filter (fun a => (code a =? c) && (vendor_id a =? v)) l.

Inductive pyval : Type :=
| PInt (n : Z)
| PStr (s : string)
| PBool (b : bool).

Definition attrs := list (string * pyval).

Fixpoint setattr (name : string) (v : pyval) (o : attrs) : attrs :=
  match o with
  | [] => [(name, v)]
  | (n, x) :: rest =>
      if String.eqb n name then (n, v) :: rest
      else (n, x) :: setattr name v rest
  end.

Fixpoint getattr (name : string) (o : attrs) : option pyval :=
  match o with
  | [] => None
  | (n, x) :: rest => if String.eqb n name then Some x else getattr name rest
  end.

(** Modelled from the spec: the classes [RequestedServiceUnit] and
    [UsedServiceUnit] of the [diameter] package are not among the sources;
    the one keyword argument the scripts give (section 4.5). *)
Record RequestedServiceUnit : Type := {
  rsu_cc_total_octets : Z
}.

Record UsedServiceUnit : Type := {
  usu_cc_total_octets : Z
}.

(** The keyword arguments of [add_multiple_services_credit_control]. *)
Record MultipleServicesCreditControl : Type := {
  rating_group : Z;
  requested_service_unit : RequestedServiceUnit;
  used_service_unit : UsedServiceUnit;
  avp : list Avp
}.

(** Modelled from the spec: the class [CreditControlRequest] of the
    [diameter] package is not among the sources.  A request is what the
    scripts put into it: the attributes assigned to its header and to itself,
    the Subscription-Ids and MSCCs added through its helpers and the AVPs
    appended to it, each in order (sections 3 and 4.2). *)
Record CreditControlRequest : Type := mkCcr {
  header : attrs;
  fields : attrs;
  subscription_id : list (Z * string);
  multiple_services_credit_control : list MultipleServicesCreditControl;
  additional_avps : list Avp
}.

Definition new_ccr : CreditControlRequest := mkCcr [] [] [] [] [].

Definition set_header (name : string) (v : pyval) (c : CreditControlRequest) :=
  mkCcr (setattr name v (header c)) (fields c) (subscription_id c)
        (multiple_services_credit_control c) (additional_avps c).

Definition set_field (name : string) (v : pyval) (c : CreditControlRequest) :=
  mkCcr (header c) (setattr name v (fields c)) (subscription_id c)
        (multiple_services_credit_control c) (additional_avps c).

Definition add_subscription_id (t : Z) (data : string) (c : CreditControlRequest) :=
  mkCcr (header c) (fields c) (subscription_id c ++ [(t, data)])
        (multiple_services_credit_control c) (additional_avps c).

Definition add_multiple_services_credit_control
    (m : MultipleServicesCreditControl) (c : CreditControlRequest) :=
  mkCcr (header c) (fields c) (subscription_id c)
        (multiple_services_credit_control c ++ [m]) (additional_avps c).

Definition append_avp (a : Avp) (c : CreditControlRequest) :=
  mkCcr (header c) (fields c) (subscription_id c)
        (multiple_services_credit_control c) (additional_avps c ++ [a]).

Definition cc_request_type (c : CreditControlRequest) : option pyval :=
  getattr "cc_request_type" (fields c).

Definition cc_request_number (c : CreditControlRequest) : option pyval :=
  getattr "cc_request_number" (fields c).

(** The AVPs inside the MSCCs of a request, whichever way they were put
    there: through the helper (its [avp] arguments) or as children of an
    appended group of code 456. *)
Definition MSCC_CODE : Z := 456.

Definition mscc_avps (c : CreditControlRequest) : list Avp :=
  flat_map avp (multiple_services_credit_control c)
  ++ flat_map children (find MSCC_CODE 0 (additional_avps c)).

(** The Reporting-Reason AVPs attached to the MSCCs of a request. *)
Definition reporting_reason_avps (c : CreditControlRequest) : list Avp :=
  find constants.AVP_TGPP_3GPP_REPORTING_REASON constants.VENDOR_TGPP
       (mscc_avps c).

Definition reporting_reason (c : CreditControlRequest) : list avp_value :=
  map value (reporting_reason_avps c).

(** *** The world the scripts run in *)

(** What [sock.sendall] was given: the object whose [as_bytes()] was sent. *)
Inductive sent_message : Type :=
| SentCER (m : Codec.Message)
| SentCCR (c : CreditControlRequest).

(** The socket, the messages sent so far (oldest first) and the clock: the
    [k]-th reading of the time is [clock k].  A reading is a floating-point
    number of seconds; it is kept as an opaque number, and the arithmetic the
    scripts do on readings is given by a [timing]. *)
Record world : Type := mkWorld {
  sock : Framing.socket;
  wire : list sent_message;
  clock : nat -> Z;
  ticks : nat
}.

Definition M (A : Type) : Type := world -> outcome A * world.

Definition ret {A} (a : A) : M A := fun w => (Return a, w).

Definition bind {A B} (m : M A) (k : A -> M B) : M B :=
  fun w =>
    match m w with
    | (Return a, w') => k a w'
    | (Raise e, w') => (Raise e, w')
    | (OutOfFuel, w') => (OutOfFuel, w')
    end.

Definition raise {A} (e : exn) : M A := fun w => (Raise e, w).

Definition out_of_fuel {A} : M A := fun w => (OutOfFuel, w).

Notation "x <- m ;; k" := (bind m (fun x => k))
  (at level 61, m at next level, right associativity).
Notation "m ;;; k" := (bind m (fun _ => k))
  (at level 61, right associativity).

(** A reading of the clock: [time.time()] and [datetime.datetime.now]. *)
Definition time_time : M Z :=
  fun w => (Return (clock w (ticks w)),
            mkWorld (sock w) (wire w) (clock w) (S (ticks w))).

(** The floating-point arithmetic of the scripts on clock readings, which is
    not modelled: [seconds t] is [int(t)], [millis t] is [int(t * 1000)] and
    [elapsed now start] is [int(now - start)], whatever the floating-point
    operations make of them. *)
Record timing : Type := mkTiming {
  seconds : Z -> Z;
  millis : Z -> Z;
  elapsed : Z -> Z -> Z
}.

(** [Avp.new(code, vendor_id, value=n)] encodes the value at once and raises
    [AvpEncodeError] when it does not fit the type of the AVP.

    Modelled from the spec: the AVP dictionary of the [diameter] package is
    not among the sources.  The octet counts (CC-Total-Octets 421,
    CC-Input-Octets 412, CC-Output-Octets 414) are unsigned 64-bit and the
    Rating-Group (432) unsigned 32-bit, as section 3 has the session's
    units and rating group; an enumerated value (Reporting-Reason 872 of
    3GPP, Multiple-Services-Indicator 455) is a signed 32-bit integer.
    Where a script passes a literal that fits ([Avp.new(455, value=1)], the
    AVPs of PS-Information), the AVP it gets is written out as [mkAvp]. *)
Definition value_range (code vendor_id : Z) : option (Z * Z) :=
  if (vendor_id =? 0) && ((code =? 421) || (code =? 412) || (code =? 414))
  then Some (0, 2 ^ 64)
  else if (vendor_id =? 0) && (code =? 432) then Some (0, 2 ^ 32)
  else if (vendor_id =? 0) && (code =? 455) then Some (- 2 ^ 31, 2 ^ 31)
  else if (vendor_id =? constants.VENDOR_TGPP)
          && (code =? constants.AVP_TGPP_3GPP_REPORTING_REASON)
  then Some (- 2 ^ 31, 2 ^ 31)
  else None.

Definition Avp_new (code vendor_id : Z) (v : avp_value) : outcome Avp :=
  match v, value_range code vendor_id with
  | VInt n, Some (lo, hi) =>
      if (lo <=? n) && (n <? hi) then Return (mkAvp code vendor_id v)
      else Raise AvpEncodeError
  | _, _ => Return (mkAvp code vendor_id v)
  end.

(** Sequencing of calls that may raise. *)
Definition and_then {A B} (o : outcome A) (k : A -> outcome B) : outcome B :=
  match o with
  | Return a => k a
  | Raise e => Raise e
  | OutOfFuel => OutOfFuel
  end.

(** A call that may raise, made in a world. *)
Definition lift {A} (o : outcome A) : M A := fun w => (o, w).

Definition sendall (m : sent_message) : M unit :=
  fun w => (Return tt, mkWorld (sock w) (wire w ++ [m]) (clock w) (ticks w)).

Definition recv_one_diameter : M bytes :=
  fun w =>
    match Framing.recv_one_diameter (sock w) with
    | Return (raw, s') => (Return raw, mkWorld s' (wire w) (clock w) (ticks w))
    | Raise e => (Raise e, w)
    | OutOfFuel => (OutOfFuel, w)
    end.

(** The requests of a credit-control session among the messages sent. *)
Definition ccrs (l : list sent_message) : list CreditControlRequest :=
  flat_map (fun m => match m with SentCCR c => [c] | SentCER _ => [] end) l.

Definition request_numbers (l : list sent_message) : list (option pyval) :=
  map cc_request_number (ccrs l).

Definition request_types (l : list sent_message) : list (option pyval) :=
  map cc_request_type (ccrs l).

(** A request of type [t], numbered [n], whose MSCC carries exactly one
    Reporting-Reason AVP, of value [rr]. *)
Definition is_ccr (t n rr : Z) (c : CreditControlRequest) : Prop :=
  cc_request_type c = Some (PInt t)
  /\ cc_request_number c = Some (PInt n)
  /\ reporting_reason c = [VInt rr].

Definition sent_is_cer (m : sent_message) : Prop :=
  match m with SentCER _ => True | SentCCR _ => False end.

Definition sent_is_ccr (t n rr : Z) (m : sent_message) : Prop :=
  match m with SentCER _ => False | SentCCR c => is_ccr t n rr c end.

(** What both scripts send on a connection, in order: the CER, then the
    initial, update and termination requests numbered 0, 1, 2, with
    Reporting-Reason 2, 3, 2. *)
Definition session_shape : list (sent_message -> Prop) :=
  [ sent_is_cer;
    sent_is_ccr constants.E_CC_REQUEST_TYPE_INITIAL_REQUEST 0 2;
    sent_is_ccr constants.E_CC_REQUEST_TYPE_UPDATE_REQUEST 1 3;
    sent_is_ccr constants.E_CC_REQUEST_TYPE_TERMINATION_REQUEST 2 2 ].

(** The messages sent are the first [k] of the session, for [k >= 1]. *)
Definition sent_prefix (k : nat) (l : list sent_message) : Prop :=
  (1 <= k <= 4)%nat /\ Forall2 (fun P m => P m) (firstn k session_shape) l.

(** A world is left as it was but for the clock readings taken. *)
Definition later (k : nat) (w w' : world) : Prop :=
  sock w' = sock w /\ wire w' = wire w /\ clock w' = clock w
  /\ ticks w' = (k + ticks w)%nat.

End Gy.

(** ** [my_task/send_and_receive_ccr_i_ccr_u_ccr_t.py] *)

Module Script1.
Import Gy.

Definition ORIGIN_HOST : string := "mscp05.gpgw-01".
Definition ORIGIN_REALM : string := "worldov.com".
Definition DEST_REALM : string := "diameter.eseye.com".
Definition DEST_HOST : string := "diameter01.eseye.com".
Definition SERVICE_CONTEXT_ID : string := "32251@3gpp.org".
Definition SESSION_ID : string :=
  "gpgw-01;061a7445;6994418f;204046996259851-04675025".
Definition USER_NAME : string :=
  "204046996259851@nai.epc.mnc004.mcc204.3gppnetwork.org".
Definition ORIGIN_STATE_ID : Z := 1771826400.
Definition SUB_E164 : string := "44792498159851".
Definition SUB_IMSI : string := "204046996259851".
Definition SUB_NAI : string :=
  "204046996259851nai.epc.mnc004.mcc204.3gppnetwork.org".
Definition RATING_GROUP : Z := 8000.
Definition REQ_TOTAL_OCTETS : Z := 10485.
Definition USED_I_TOTAL : Z := 10485.
Definition USED_U_TOTAL : Z := 10485.
Definition USED_T_TOTAL : Z := 512000.
Definition PDP_IP : string := "198.18.153.154".
Definition NSAPI : bytes := [x05].
Definition RAT_TYPE : bytes := [x06].
Definition CER_VENDOR_ID : Z := 6527.
Definition CER_PRODUCT_NAME : string := "SR-OS-MG".

Definition build_cer : Codec.Message :=
  let cer := Codec.CapabilitiesExchangeRequest in
  let cer := Codec.set_origin_host ORIGIN_HOST cer in
  let cer := Codec.set_origin_realm ORIGIN_REALM cer in
  let cer := Codec.set_host_ip_address 198 18 153 154 cer in
  let cer := Codec.set_vendor_id CER_VENDOR_ID cer in
  let cer := Codec.set_product_name CER_PRODUCT_NAME cer in
  let cer := Codec.set_origin_state_id ORIGIN_STATE_ID cer in
  let cer := Codec.set_auth_application_id
               constants.APP_DIAMETER_CREDIT_CONTROL_APPLICATION cer in
  Codec.set_inband_security_id
    constants.E_INBAND_SECURITY_ID_NO_INBAND_SECURITY cer.

Definition add_common_ccr_avps (ccr : CreditControlRequest)
  : M CreditControlRequest :=
  let ccr := set_header "application_id"
               (PInt constants.APP_DIAMETER_CREDIT_CONTROL_APPLICATION) ccr in
  let ccr := set_header "is_proxyable" (PBool true) ccr in
  let ccr := set_field "session_id" (PStr SESSION_ID) ccr in
  let ccr := set_field "origin_host" (PStr ORIGIN_HOST) ccr in
  let ccr := set_field "origin_realm" (PStr ORIGIN_REALM) ccr in
  let ccr := set_field "destination_realm" (PStr DEST_REALM) ccr in
  let ccr := set_field "destination_host" (PStr DEST_HOST) ccr in
  let ccr := set_field "auth_application_id"
               (PInt constants.APP_DIAMETER_CREDIT_CONTROL_APPLICATION) ccr in
  let ccr := set_field "service_context_id" (PStr SERVICE_CONTEXT_ID) ccr in
  let ccr := set_field "user_name" (PStr USER_NAME) ccr in
  let ccr := set_field "origin_state_id" (PInt ORIGIN_STATE_ID) ccr in
  now <- time_time ;;
  let ccr := set_field "event_timestamp" (PInt now) ccr in
  let ccr := add_subscription_id
               constants.E_SUBSCRIPTION_ID_TYPE_END_USER_E164 SUB_E164 ccr in
  let ccr := add_subscription_id
               constants.E_SUBSCRIPTION_ID_TYPE_END_USER_IMSI SUB_IMSI ccr in
  let ccr := add_subscription_id
               constants.E_SUBSCRIPTION_ID_TYPE_END_USER_NAI SUB_NAI ccr in
  let ccr := append_avp
               (mkAvp constants.AVP_MULTIPLE_SERVICES_INDICATOR 0 (VInt 1)) ccr in
  let service_info :=
    mkAvp constants.AVP_TGPP_SERVICE_INFORMATION constants.VENDOR_TGPP VNone in
  let ps_info :=
    mkAvp constants.AVP_TGPP_PS_INFORMATION constants.VENDOR_TGPP VNone in
  let ps_info := set_value ps_info (VList [
    mkAvp constants.AVP_TGPP_3GPP_PDP_TYPE constants.VENDOR_TGPP (VInt 0);
    mkAvp constants.AVP_TGPP_PDP_ADDRESS constants.VENDOR_TGPP (VStr PDP_IP);
    mkAvp constants.AVP_TGPP_3GPP_NSAPI constants.VENDOR_TGPP (VBytes NSAPI);
    mkAvp constants.AVP_TGPP_3GPP_RAT_TYPE constants.VENDOR_TGPP (VBytes RAT_TYPE)
  ]) in
  let service_info := set_value service_info (VList [ps_info]) in
  ret (append_avp service_info ccr).

Section Timing.

(** The arithmetic on clock readings. *)
Variable T : timing.

Definition build_ccr (request_type request_number used_total_octets : Z)
  : M CreditControlRequest :=
  let ccr := new_ccr in
  t1 <- time_time ;;
  let ccr := set_header "hop_by_hop_identifier"
               (PInt (Z.land (seconds T t1) 0xFFFFFFFF)) ccr in
  t2 <- time_time ;;
  let ccr := set_header "end_to_end_identifier"
               (PInt (Z.land (millis T t2) 0xFFFFFFFF)) ccr in
  ccr <- add_common_ccr_avps ccr ;;
  let ccr := set_field "cc_request_type" (PInt request_type) ccr in
  let ccr := set_field "cc_request_number" (PInt request_number) ccr in
  let reporting_reason :=
    if request_type =? constants.E_CC_REQUEST_TYPE_UPDATE_REQUEST
    then 3 else 2 in
  ret (add_multiple_services_credit_control
         {| rating_group := RATING_GROUP;
            requested_service_unit :=
              {| rsu_cc_total_octets := REQ_TOTAL_OCTETS |};
            used_service_unit :=
              {| usu_cc_total_octets := used_total_octets |};
            avp := [mkAvp constants.AVP_TGPP_3GPP_REPORTING_REASON
                          constants.VENDOR_TGPP (VInt reporting_reason)] |}
         ccr).

(** [send_and_recv]: the message is sent, one answer is read and parsed;
    [Message.from_bytes] raises on bytes it cannot decode. *)
Definition send_and_recv (msg : sent_message) : M Codec.Message :=
  sendall msg ;;;
  raw <- recv_one_diameter ;;
  match Codec.from_bytes raw with
  | Codec.Ok ans => ret ans
  | Codec.Err _ => raise MessageError
  end.

Definition main : M unit :=
  send_and_recv (SentCER build_cer) ;;;
  ccr_i <- build_ccr constants.E_CC_REQUEST_TYPE_INITIAL_REQUEST 0 USED_I_TOTAL ;;
  send_and_recv (SentCCR ccr_i) ;;;
  ccr_u <- build_ccr constants.E_CC_REQUEST_TYPE_UPDATE_REQUEST 1 USED_U_TOTAL ;;
  send_and_recv (SentCCR ccr_u) ;;;
  ccr_t <- build_ccr constants.E_CC_REQUEST_TYPE_TERMINATION_REQUEST 2 USED_T_TOTAL ;;
  send_and_recv (SentCCR ccr_t) ;;;
  ret tt.

End Timing.

End Script1.

(** ** [my_task/send_and_terminate_ccr_when_data_exhausted.py] *)

Module Script2.
Import Gy.

Definition ORIGIN_HOST : string := "mscp05.gpgw-01".
Definition ORIGIN_REALM : string := "worldov.com".
Definition DEST_REALM : string := "diameter.eseye.com".
Definition DEST_HOST : string := "diameter01.eseye.com".
Definition SERVICE_CONTEXT_ID : string := "32251@3gpp.org".
Definition USER_NAME : string := "overwrite@eseyetest.mnc004.mcc204.gprs".
Definition ORIGIN_STATE_ID : Z := 1771826400.
Definition SUB_E164 : string := "44792498159851".
Definition SUB_IMSI : string := "234588562842351".
Definition SUB_NAI : string := "overwrite@eseyetest.mnc004.mcc204.gprs".
Definition RATING_GROUP : Z := 8000.
Definition PDP_IP : string := "198.18.153.112".
Definition NSAPI : bytes := [x05].
Definition RAT_TYPE : bytes := [x06].
Definition DEFAULT_OCTETS : Z := 512000.
Definition VALIDITY_SECONDS : Z := 1800.
Definition SIM_STEP_BYTES : Z := 50 * 1024.

(** [split_in_out]; [//] is floor division. *)
Definition split_in_out (total : Z) : Z * Z :=
  let inp := total / 4 in
  let out := total - inp in
  (inp, out).

Definition build_cer : Codec.Message :=
  let cer := Codec.CapabilitiesExchangeRequest in
  let cer := Codec.set_origin_host ORIGIN_HOST cer in
  let cer := Codec.set_origin_realm ORIGIN_REALM cer in
  let cer := Codec.set_origin_state_id ORIGIN_STATE_ID cer in
  let cer := Codec.set_auth_application_id
               constants.APP_DIAMETER_CREDIT_CONTROL_APPLICATION cer in
  Codec.set_inband_security_id
    constants.E_INBAND_SECURITY_ID_NO_INBAND_SECURITY cer.

(** [build_mscc]: every [Avp.new] is a call that may raise, made in the order
    Python evaluates them. *)
Definition build_mscc (requested_octets used_total reporting_reason : Z)
  : outcome Avp :=
  let '(inp, out) := split_in_out used_total in
  and_then (Avp_new 421 0 (VInt requested_octets)) (fun rsu_total =>
  and_then (Avp_new 437 0 (VList [rsu_total])) (fun rsu =>
  and_then (Avp_new 421 0 (VInt used_total)) (fun usu_total =>
  and_then (Avp_new 412 0 (VInt inp)) (fun usu_input =>
  and_then (Avp_new 414 0 (VInt out)) (fun usu_output =>
  and_then (Avp_new 446 0 (VList [usu_total; usu_input; usu_output])) (fun usu =>
  and_then (Avp_new 432 0 (VInt RATING_GROUP)) (fun rg =>
  and_then (Avp_new constants.AVP_TGPP_3GPP_REPORTING_REASON
                    constants.VENDOR_TGPP (VInt reporting_reason)) (fun rr =>
  Avp_new 456 0 (VList [rsu; usu; rg; rr]))))))))).

(** Which [break] ended the usage loop. *)
Inductive trigger : Type :=
| QuotaExhausted
| ValidityExpired.

(** One pass through the body of the usage loop of [main], [elapsed] already
    computed: a [break], or the next value of [used_total]. *)
Definition usage_step (elapsed used_total : Z) : trigger + Z :=
  if used_total >=? DEFAULT_OCTETS then inl QuotaExhausted
  else if elapsed >=? VALIDITY_SECONDS then inl ValidityExpired
  else inr (Z.min DEFAULT_OCTETS (used_total + SIM_STEP_BYTES)).

(** [int(time.time() - start)]. *)
Definition elapsed_seconds (T : timing) (now start : Z) : Z :=
  elapsed T now start.

(** The successive values of [used_total] over the passes of the usage loop
    whose elapsed times are [elapsed], from the value it enters with. *)
Fixpoint usage_values (elapsed : list Z) (used_total : Z) : list Z :=
  match elapsed with
  | [] => [used_total]
  | e :: rest =>
      match usage_step e used_total with
      | inl _ => [used_total]
      | inr used_total' => used_total :: usage_values rest used_total'
      end
  end.

(** The elapsed times the next [k] passes of the loop compute in a world. *)
Definition elapsed_readings (T : timing) (k : nat) (start : Z) (w : world)
  : list Z :=
  map (fun i => elapsed_seconds T (clock w (ticks w + i)%nat) start) (seq 0 k).

Section Session.

(** The arithmetic on clock readings. *)
Variable T : timing.

(** [SESSION_ID], formatted when the module is loaded from the time then. *)
Variable SESSION_ID : string.

Definition add_common_ccr_avps (ccr : CreditControlRequest)
  : M CreditControlRequest :=
  let ccr := set_header "application_id"
               (PInt constants.APP_DIAMETER_CREDIT_CONTROL_APPLICATION) ccr in
  let ccr := set_header "is_proxyable" (PBool true) ccr in
  t1 <- time_time ;;
  let ccr := set_header "hop_by_hop_identifier"
               (PInt (Z.land (seconds T t1) 0xFFFFFFFF)) ccr in
  t2 <- time_time ;;
  let ccr := set_header "end_to_end_identifier"
               (PInt (Z.land (millis T t2) 0xFFFFFFFF)) ccr in
  let ccr := set_field "session_id" (PStr SESSION_ID) ccr in
  let ccr := set_field "origin_host" (PStr ORIGIN_HOST) ccr in
  let ccr := set_field "origin_realm" (PStr ORIGIN_REALM) ccr in
  let ccr := set_field "destination_realm" (PStr DEST_REALM) ccr in
  let ccr := set_field "destination_host" (PStr DEST_HOST) ccr in
  let ccr := set_field "auth_application_id"
               (PInt constants.APP_DIAMETER_CREDIT_CONTROL_APPLICATION) ccr in
  let ccr := set_field "service_context_id" (PStr SERVICE_CONTEXT_ID) ccr in
  let ccr := set_field "user_name" (PStr USER_NAME) ccr in
  let ccr := set_field "origin_state_id" (PInt ORIGIN_STATE_ID) ccr in
  now <- time_time ;;
  let ccr := set_field "event_timestamp" (PInt now) ccr in
  let ccr := add_subscription_id
               constants.E_SUBSCRIPTION_ID_TYPE_END_USER_E164 SUB_E164 ccr in
  let ccr := add_subscription_id
               constants.E_SUBSCRIPTION_ID_TYPE_END_USER_IMSI SUB_IMSI ccr in
  let ccr := add_subscription_id
               constants.E_SUBSCRIPTION_ID_TYPE_END_USER_NAI SUB_NAI ccr in
  let ccr := append_avp (mkAvp 455 0 (VInt 1)) ccr in
  let service_info :=
    mkAvp constants.AVP_TGPP_SERVICE_INFORMATION constants.VENDOR_TGPP VNone in
  let ps_info :=
    mkAvp constants.AVP_TGPP_PS_INFORMATION constants.VENDOR_TGPP VNone in
  let ps_info := set_value ps_info (VList [
    mkAvp constants.AVP_TGPP_3GPP_PDP_TYPE constants.VENDOR_TGPP (VInt 0);
    mkAvp constants.AVP_TGPP_PDP_ADDRESS constants.VENDOR_TGPP (VStr PDP_IP);
    mkAvp constants.AVP_TGPP_3GPP_NSAPI constants.VENDOR_TGPP (VBytes NSAPI);
    mkAvp constants.AVP_TGPP_3GPP_RAT_TYPE constants.VENDOR_TGPP (VBytes RAT_TYPE)
  ]) in
  let service_info := set_value service_info (VList [ps_info]) in
  ret (append_avp service_info ccr).

Definition build_ccr (req_type req_no used_total reporting_reason : Z)
  : M CreditControlRequest :=
  let ccr := new_ccr in
  ccr <- add_common_ccr_avps ccr ;;
  let ccr := set_field "cc_request_type" (PInt req_type) ccr in
  let ccr := set_field "cc_request_number" (PInt req_no) ccr in
  mscc <- lift (build_mscc DEFAULT_OCTETS used_total reporting_reason) ;;
  ret (append_avp mscc ccr).

(** [send_and_wait]: the answer's result code is only logged, and
    [parse_result_code] swallows what [Message.from_bytes] raises. *)
Definition send_and_wait (payload : sent_message) : M bytes :=
  sendall payload ;;;
  recv_one_diameter.

(** The usage loop of [main]:
<<
    while True:
        elapsed = int(time.time() - start)
        if used_total >= DEFAULT_OCTETS: break
        if elapsed >= VALIDITY_SECONDS: break
        used_total = min(DEFAULT_OCTETS, used_total + SIM_STEP_BYTES)
        time.sleep(SIM_SLEEP_SEC)
>>
    It returns the final [used_total] and which [break] was taken; [fuel]
    bounds the number of passes. *)
Fixpoint usage_loop (fuel : nat) (start used_total : Z) : M (Z * trigger) :=
  match fuel with
  | O => out_of_fuel
  | S fuel' =>
      now <- time_time ;;
      match usage_step (elapsed_seconds T now start) used_total with
      | inl why => ret (used_total, why)
      | inr used_total' => usage_loop fuel' start used_total'
      end
  end.

(** Passes that are enough from [used_total = 0]: ten steps of
    [SIM_STEP_BYTES] reach [DEFAULT_OCTETS], the eleventh pass breaks. *)
Definition usage_fuel : nat := 11.

(** [main], returning what the usage loop ended with. *)
Definition main : M (Z * trigger) :=
  let used_total := 0 in
  start <- time_time ;;
  send_and_wait (SentCER build_cer) ;;;
  ccr_i <- build_ccr constants.E_CC_REQUEST_TYPE_INITIAL_REQUEST 0 0 2 ;;
  send_and_wait (SentCCR ccr_i) ;;;
  r <- usage_loop usage_fuel start used_total ;;
  let '(used_total, why) := r in
  ccr_u <- build_ccr constants.E_CC_REQUEST_TYPE_UPDATE_REQUEST 1 used_total 3 ;;
  send_and_wait (SentCCR ccr_u) ;;;
  ccr_t <- build_ccr constants.E_CC_REQUEST_TYPE_TERMINATION_REQUEST 2 used_total 2 ;;
  send_and_wait (SentCCR ccr_t) ;;;
  ret (used_total, why).

End Session.

End Script2.

(** ** Sample streams and worlds *)

Module Samples.

(** A bare 20-byte header: version 1, length 20, everything else zero. *)
Definition answer20 : bytes :=
  [x01; x00; x00; x14] ++ repeat x00 16.

(** A 24-byte message: a header declaring 24, then 4 body bytes. *)
Definition message24 : bytes :=
  [x01; x00; x00; x18] ++ repeat x00 16 ++ [x0a; x0b; x0c; x0d].

(** The first bytes of whatever the peer sends next. *)
Definition next_bytes : bytes := [x01; x00; x00].

(** [message24 ++ next_bytes] cut into chunks of 1, 6, 15 and 5 bytes: the
    header spans three chunks and the last chunk runs past the message. *)
Definition chunks24 : list bytes :=
  [ [x01];
    [x00; x00; x18; x00; x00; x00];
    repeat x00 13 ++ [x0a; x0b];
    [x0c; x0d; x01; x00; x00] ].

(** A header that declares a length of 5, followed by other bytes. *)
Definition underclaimed : list bytes :=
  [ [x01; x00; x00; x05] ++ repeat x00 16 ++ [xff; xff] ].

(** A peer that answers each of the four requests with a bare header. *)
Definition answering : Framing.socket :=
  Framing.mkSocket [answer20; answer20; answer20; answer20] [].

(** The arithmetic on readings that are whole numbers of seconds, where the
    floating-point operations are exact. *)
Definition whole_seconds : Gy.timing :=
  Gy.mkTiming (fun t => t) (fun t => t * 1000) (fun now start => now - start).

(** A clock that stands still: no time passes during the run. *)
Definition world_fast : Gy.world :=
  Gy.mkWorld answering [] (fun _ => 0) 0.

(** A clock that has moved on by 1800 seconds after its first reading. *)
Definition world_slow : Gy.world :=
  Gy.mkWorld answering [] (fun k => match k with O => 0 | S _ => 1800 end) 0.

(** A peer that closes the connection after answering the CER. *)
Definition world_closing : Gy.world :=
  Gy.mkWorld (Framing.mkSocket [answer20] []) [] (fun _ => 0) 0.

End Samples.

(** ** Frames of a stream *)

Module Frames.
Import Framing.

(** A whole message: at least a header, and header bytes 1..3 hold its
    length. *)
Definition well_framed (m : bytes) : Prop :=
  20 <= len m /\ total_len m = len m.

(** What a call gives its caller: the bytes or the exception, the socket
    left aside. *)
Definition returned (o : outcome (bytes * socket)) : outcome bytes :=
  match o with
  | Return (m, _) => Return m
  | Raise e => Raise e
  | OutOfFuel => OutOfFuel
  end.

(** The number of bytes of the first frame of a stream: what its header
    declares, and never less than the header. *)
Definition frame_length (d : bytes) : nat :=
  Z.to_nat (Z.max 20 (total_len d)).

(** The first frame of the bytes a stream delivers, in closed form. *)
Definition first_frame (d : bytes) : outcome bytes :=
  if len d <? 20 then Raise (ConnectionError header_closed)
  else if len d <? total_len d then Raise (ConnectionError body_closed)
  else Return (firstn (frame_length d) d).

Definition closes_earlyb (d : bytes) : bool :=
  (len d <? 20) || (len d <? total_len d).

(** How many of the first [k] frames of a stream are delivered whole. *)
Fixpoint complete_frames (k : nat) (d : bytes) : nat :=
  match k with
  | O => O
  | S k' =>
      if closes_earlyb d then O
      else S (complete_frames k' (skipn (frame_length d) d))
  end.

End Frames.

(** ** Views of the requests built *)

Module Views.
Import Gy.

(** The values of the AVPs of code [c] inside the groups of code [g] of the
    MSCCs of a request. *)
Definition mscc_field (g c : Z) (r : CreditControlRequest) : list avp_value :=
  map value (flat_map (fun a => find c 0 (children a)) (find g 0 (mscc_avps r))).

(** Used-Service-Unit (446): CC-Total-Octets (421), CC-Input-Octets (412),
    CC-Output-Octets (414); Requested-Service-Unit (437): CC-Total-Octets. *)
Definition used_total_octets := mscc_field 446 421.
Definition used_input_octets := mscc_field 446 412.
Definition used_output_octets := mscc_field 446 414.
Definition requested_total_octets := mscc_field 437 421.

(** The MSCC of [build_mscc(requested_octets, used_total, reporting_reason)]
    when every [Avp.new] in it returns: Requested-Service-Unit,
    Used-Service-Unit with the split of [used_total], Rating-Group and
    Reporting-Reason. *)
Definition mscc_tree (requested used rr : Z) : Avp :=
  mkAvp 456 0 (VList [
    mkAvp 437 0 (VList [mkAvp 421 0 (VInt requested)]);
    mkAvp 446 0 (VList [mkAvp 421 0 (VInt used);
                        mkAvp 412 0 (VInt (fst (Script2.split_in_out used)));
                        mkAvp 414 0 (VInt (snd (Script2.split_in_out used)))]);
    mkAvp 432 0 (VInt Script2.RATING_GROUP);
    mkAvp constants.AVP_TGPP_3GPP_REPORTING_REASON constants.VENDOR_TGPP
          (VInt rr)]).

(** A request that some call [build_ccr(req_type, req_no, used_total,
    reporting_reason)] of the second script returned. *)
Definition built2 (T : timing) (sid : string) (t n u rr : Z)
    (c : CreditControlRequest) : Prop :=
  exists w w', Script2.build_ccr T sid t n u rr w = (Return c, w').

(** A request that some call [build_ccr(request_type, request_number,
    used_total_octets)] of the first script returned. *)
Definition built1 (T : timing) (t n u : Z) (c : CreditControlRequest) : Prop :=
  exists w w', Script1.build_ccr T t n u w = (Return c, w').

(** The elapsed time the [i]-th next pass of the usage loop computes. *)
Definition elapsed_at (T : timing) (start : Z) (w : world) (i : nat) : Z :=
  Script2.elapsed_seconds T (clock w (ticks w + i)%nat) start.

End Views.

(** ** [my_task/binary_hex_convertion.py] *)

Module Hexdump.

Definition hex_digit (n : N) : Ascii.ascii :=
  match n with
  | 0 => "0" | 1 => "1" | 2 => "2" | 3 => "3" | 4 => "4" | 5 => "5"
  | 6 => "6" | 7 => "7" | 8 => "8" | 9 => "9" | 10 => "a" | 11 => "b"
  | 12 => "c" | 13 => "d" | 14 => "e" | _ => "f"
  end%N%char.

(** [f"{x:02x}"] of a byte: its two hexadecimal digits. *)
Definition format_02x (x : byte) : string :=
  String (hex_digit (Byte.to_N x / 16))
         (String (hex_digit (Byte.to_N x mod 16)) EmptyString).

(** The hexadecimal digits of a number, most significant first; [fuel]
    bounds their number. *)
Fixpoint hex_digits (fuel : nat) (n : N) : string :=
  match fuel with
  | O => EmptyString
  | S fuel' =>
      if (n <? 16)%N then String (hex_digit n) EmptyString
      else String.append (hex_digits fuel' (n / 16))
                         (String (hex_digit (n mod 16)) EmptyString)
  end.

(** [f"{n:x}"]: a number has no more hexadecimal digits than bits. *)
Definition format_x (n : N) : string := hex_digits (S (N.size_nat n)) n.

Fixpoint repeat_char (c : Ascii.ascii) (k : nat) : string :=
  match k with
  | O => EmptyString
  | S k' => String c (repeat_char c k')
  end.

(** [f"{i:04x}"]: zero-padded on the left to at least four digits. *)
Definition format_04x (i : nat) : string :=
  let d := format_x (N.of_nat i) in
  String.append (repeat_char "0" (4 - String.length d)) d.

(** [f"{s:<{w}}"]: space-padded on the right to at least [w] characters. *)
Definition ljust (w : nat) (s : string) : string :=
  String.append s (repeat_char " " (w - String.length s)).

(** [chr(x) if 32 <= x < 127 else "."]. *)
Definition printable (x : byte) : Ascii.ascii :=
  if ((32 <=? Byte.to_N x) && (Byte.to_N x <? 127))%N
  then Ascii.ascii_of_byte x
  else "."%char.

(** The hexadecimal column: [" ".join(f"{x:02x}" for x in chunk)]. *)
Definition hx (chunk : bytes) : string :=
  String.concat " " (map format_02x chunk).

(** The text column: ["".join(... for x in chunk)]. *)
Definition asc (chunk : bytes) : string :=
  string_of_list_ascii (map printable chunk).

(** One line: [f"{i:04x}  {hx:<{width*3}}  {asc}"]. *)
Definition line (width i : nat) (chunk : bytes) : string :=
  String.append (format_04x i)
    (String.append "  "
       (String.append (ljust (width * 3) (hx chunk))
          (String.append "  " (asc chunk)))).

(** [range(0, stop, step)] for [step > 0]. *)
Definition range_step (stop step : nat) : list nat :=
  map (fun k => (k * step)%nat) (seq 0 ((stop + step - 1) / step)).

(** The list [lines] at the end of the loop, for [width > 0]. *)
Definition hexdump_lines (b : bytes) (width : nat) : list string :=
  map (fun i => line width i (slice i (i + width) b))
      (range_step (length b) width).

(** The line break. *)
Definition nl : Ascii.ascii := Ascii.ascii_of_nat 10.

Definition newline : string := String (Ascii.ascii_of_nat 10) EmptyString.

Inductive result : Type :=
| Dump (s : string)
| ValueError.

(** [hexdump(b, width)]: [range] raises [ValueError] for a step of zero and
    is empty for a negative one. *)
Definition hexdump (b : bytes) (width : Z) : result :=
  if width =? 0 then ValueError
  else if width <? 0 then Dump EmptyString
  else Dump (String.concat newline (hexdump_lines b (Z.to_nat width))).

(** Every character of a text satisfies [P]. *)
Definition all_chars (P : Ascii.ascii -> Prop) (s : string) : Prop :=
  Forall P (list_ascii_of_string s).

(** A character between the space and the tilde. *)
Definition printable_char (c : Ascii.ascii) : Prop :=
  (32 <= Ascii.N_of_ascii c < 127)%N.

(** A printable character that is not a space, as the digits are. *)
Definition digit_char (c : Ascii.ascii) : Prop :=
  printable_char c /\ c <> " "%char.

(** The chunks the loop cuts [b] into. *)
Definition chunks (b : bytes) (width : nat) : list bytes :=
  map (fun i => slice i (i + width) b) (range_step (length b) width).

(** *** Reading a dump back *)

Definition hex_value (c : Ascii.ascii) : option N :=
  let n := Ascii.N_of_ascii c in
  if ((48 <=? n) && (n <=? 57))%N then Some (n - 48)%N
  else if ((97 <=? n) && (n <=? 102))%N then Some (n - 87)%N
  else None.

Definition byte_of_hex (a b : Ascii.ascii) : option byte :=
  match hex_value a, hex_value b with
  | Some h, Some l => Byte.of_N (h * 16 + l)
  | _, _ => None
  end.

(** The bytes of a hexadecimal column: pairs of digits, one space between
    two pairs, up to the first place that is not of that form. *)
Fixpoint unhex (s : string) : bytes :=
  match s with
  | String a (String b rest) =>
      match byte_of_hex a b with
      | Some x =>
          x :: match rest with
               | String " " rest' => unhex rest'
               | _ => []
               end
      | None => []
      end
  | _ => []
  end.

(** What follows the offset of a line: the text after the first two
    spaces. *)
Fixpoint after_offset (s : string) : string :=
  match s with
  | String " " (String " " rest) => rest
  | String _ rest => after_offset rest
  | EmptyString => EmptyString
  end.

Definition line_bytes (l : string) : bytes := unhex (after_offset l).

(** The lines of a text; the empty text has none. *)
Fixpoint split_lines_from (cur : string -> string) (s : string) : list string :=
  match s with
  | EmptyString => [cur EmptyString]
  | String c rest =>
      if Ascii.eqb c (Ascii.ascii_of_nat 10)
      then cur EmptyString :: split_lines_from (fun x => x) rest
      else split_lines_from (fun x => cur (String c x)) rest
  end.

Definition split_lines (s : string) : list string :=
  match s with
  | EmptyString => []
  | _ => split_lines_from (fun x => x) s
  end.

(** The bytes a dump shows. *)
Definition undump (r : result) : option bytes :=
  match r with
  | Dump s => Some (flat_map line_bytes (split_lines s))
  | ValueError => None
  end.

End Hexdump.

(** * Proofs *)

(** ** Framing *)

Section FramingProofs.
Import Framing.

Lemma len_app {A} (l1 l2 : list A) : len (l1 ++ l2) = len l1 + len l2.
Proof. unfold len. rewrite length_app. lia. Qed.

Lemma len_nonneg {A} (l : list A) : 0 <= len l.
Proof. unfold len. lia. Qed.

(** What is left at the head after a [recv] delivers the rest of the head
    chunk's bytes. *)
Lemma delivered_of_leftover (r : bytes) (rest : list bytes) :
  delivered_of (match r with [] => rest | b :: l => (b :: l) :: rest end)
  = r ++ delivered_of rest.
Proof. destruct r; reflexivity. Qed.

Lemma nonempty_leftover (r : bytes) (rest : list bytes) :
  nonempty_chunks rest ->
  nonempty_chunks (match r with [] => rest | b :: l => (b :: l) :: rest end).
Proof.
  intros H. destruct r; [assumption|].
  constructor; [discriminate | assumption].
Qed.

Lemma delivered_nonempty_chunks (p : list bytes) :
  nonempty_chunks p -> delivered_of p = concat p.
Proof.
  induction 1 as [|c p Hc _ IH]; [reflexivity|].
  destruct c; [contradiction|]. simpl. now rewrite IH.
Qed.

(** The loop returns as soon as its target is reached, without a [recv]. *)
Lemma recv_loop_done fuel msg target buf s :
  target <= len buf -> recv_loop fuel msg target buf s = Return (buf, s).
Proof.
  intros H. destruct fuel; simpl;
    destruct (Z.ltb_spec (len buf) target); (lia || reflexivity).
Qed.

(** The loop on a stream that delivers enough bytes. *)
Lemma recv_loop_enough fuel : forall msg target buf s,
  (Z.to_nat (target - len buf) <= fuel)%nat ->
  (Z.to_nat (target - len buf) <= length (delivered s))%nat ->
  exists s',
    recv_loop fuel msg target buf s
    = Return (buf ++ firstn (Z.to_nat (target - len buf)) (delivered s), s')
    /\ delivered s' = skipn (Z.to_nat (target - len buf)) (delivered s)
    /\ (nonempty_chunks (pending s) -> nonempty_chunks (pending s')).
Proof.
  induction fuel as [|fuel IH]; intros msg target buf s Hfuel Hdel.
  - assert (Hle : target <= len buf) by lia.
    rewrite recv_loop_done by assumption.
    replace (Z.to_nat (target - len buf)) with 0%nat by lia.
    exists s. simpl. rewrite app_nil_r. auto.
  - destruct (Z.le_gt_cases target (len buf)) as [Hle|Hgt].
    + rewrite recv_loop_done by assumption.
      replace (Z.to_nat (target - len buf)) with 0%nat by lia.
      exists s. simpl. rewrite app_nil_r. auto.
    + simpl. destruct (Z.ltb_spec (len buf) target) as [_|]; [|lia].
      set (need := Z.to_nat (target - len buf)) in *.
      assert (Hneed : (0 < need)%nat) by (subst need; lia).
      assert (Hn : Z.of_nat need = target - len buf) by (subst need; lia).
      clearbody need.
      unfold delivered in Hdel |- *. unfold recv.
      destruct (pending s) as [|c rest] eqn:Hp; [simpl in Hdel; lia|].
      destruct c as [|b c]; [simpl in Hdel; lia|].
      assert (Hc : (0 < length (b :: c))%nat) by (simpl; lia).
      replace (Z.to_nat (target - len buf)) with need by lia.
      destruct (firstn need (b :: c)) as [|b' chunk] eqn:Hchunk.
      { destruct need; [lia|discriminate]. }
      rewrite <- Hchunk. clear b' chunk Hchunk.
      set (s' := mkSocket _ _).
      assert (Hlen : len (buf ++ firstn need (b :: c))
                     = len buf + Z.of_nat (Nat.min need (length (b :: c)))).
      { rewrite len_app. unfold len at 2. now rewrite length_firstn. }
      assert (Hds' : delivered s' = skipn need (b :: c) ++ delivered_of rest).
      { unfold delivered, s'. cbn [pending]. apply delivered_of_leftover. }
      change (delivered_of ((b :: c) :: rest))
        with ((b :: c) ++ delivered_of rest) in *.
      rewrite length_app in Hdel.
      destruct (IH msg target (buf ++ firstn need (b :: c)) s')
        as (s2 & Hrun & Hrest & Hne).
      { rewrite Hlen. lia. }
      { rewrite Hlen, Hds', length_app, length_skipn. lia. }
      rewrite Hlen in Hrun, Hrest.
      replace (Z.to_nat (target - (len buf + Z.of_nat (Nat.min need (length (b :: c))))))
        with (need - Nat.min need (length (b :: c)))%nat in Hrun, Hrest by lia.
      rewrite Hds' in Hrun, Hrest.
      exists s2. fold (delivered s2). rewrite Hrun, Hrest.
      assert (Hne' : nonempty_chunks ((b :: c) :: rest) -> nonempty_chunks (pending s2)).
      { intros Hs. apply Hne. unfold s'. cbn [pending].
        inversion Hs; subst. now apply nonempty_leftover. }
      rewrite !firstn_app, !skipn_app.
      destruct (Nat.le_gt_cases need (length (b :: c))) as [Hin|Hout].
      * rewrite Nat.min_l by assumption.
        replace (need - need)%nat with 0%nat by lia.
        replace (need - length (b :: c))%nat with 0%nat by lia.
        rewrite !firstn_0, !skipn_O, !app_nil_r. auto.
      * rewrite Nat.min_r by lia.
        rewrite (@firstn_all2 _ need (b :: c)) by lia.
        rewrite (@skipn_all2 _ need (b :: c)) by lia.
        rewrite <- app_assoc, firstn_nil, skipn_nil.
        cbn [length app]. rewrite !Nat.sub_0_r. auto.
Qed.

(** The loop on a stream that ends too early. *)
Lemma recv_loop_short fuel : forall msg target buf s,
  (Z.to_nat (target - len buf) <= fuel)%nat ->
  (length (delivered s) < Z.to_nat (target - len buf))%nat ->
  recv_loop fuel msg target buf s = Raise (ConnectionError msg).
Proof.
  induction fuel as [|fuel IH]; intros msg target buf s Hfuel Hdel; [lia|].
  simpl. destruct (Z.ltb_spec (len buf) target) as [Hlt|]; [|lia].
  unfold delivered in Hdel. unfold recv.
  destruct (pending s) as [|c rest] eqn:Hp; [reflexivity|].
  destruct c as [|b c]; [reflexivity|].
  set (need := Z.to_nat (target - len buf)) in *.
  change (delivered_of ((b :: c) :: rest))
    with ((b :: c) ++ delivered_of rest) in Hdel.
  rewrite length_app in Hdel.
  rewrite (@firstn_all2 _ need (b :: c)) by lia.
  rewrite (@skipn_all2 _ need (b :: c)) by lia.
  assert (Hn : Z.of_nat need = target - len buf) by (subst need; lia).
  clearbody need. cbn [length] in Hdel.
  apply IH; rewrite len_app; unfold delivered; cbn [pending];
    unfold len in *; cbn [length]; lia.
Qed.

(** The length field read from the first 20 bytes is the one of the stream. *)
Lemma total_len_firstn (d : bytes) : total_len (firstn 20 d) = total_len d.
Proof.
  unfold total_len, slice. rewrite skipn_firstn_comm, firstn_firstn.
  reflexivity.
Qed.

Lemma recv_header_enough s :
  20 <= len (delivered s) ->
  exists s1,
    recv_header s = Return (firstn 20 (delivered s), s1)
    /\ delivered s1 = skipn 20 (delivered s)
    /\ (nonempty_chunks (pending s) -> nonempty_chunks (pending s1)).
Proof.
  intros H. unfold recv_header.
  destruct (recv_loop_enough 20 header_closed 20 [] s) as (s1 & Hrun & Hd & Hne).
  - simpl. lia.
  - unfold len in H. simpl. lia.
  - exists s1. auto.
Qed.

Lemma recv_header_short s :
  len (delivered s) < 20 ->
  recv_header s = Raise (ConnectionError header_closed).
Proof.
  intros H. apply recv_loop_short; unfold len in H; simpl; lia.
Qed.

(** On a stream that delivers a whole message, [recv_one_diameter] returns
    the first [max 20 total_len] bytes and leaves the rest in the socket. *)
Lemma recv_one_diameter_whole s :
  20 <= len (delivered s) ->
  total_len (delivered s) <= len (delivered s) ->
  exists s2,
    recv_one_diameter s
    = Return (firstn (Z.to_nat (Z.max 20 (total_len (delivered s)))) (delivered s), s2)
    /\ delivered s2
       = skipn (Z.to_nat (Z.max 20 (total_len (delivered s)))) (delivered s)
    /\ (nonempty_chunks (pending s) -> nonempty_chunks (pending s2)).
Proof.
  intros H20 Htot. unfold recv_one_diameter.
  destruct (recv_header_enough s H20) as (s1 & Hh & Hd1 & Hne1).
  rewrite Hh, total_len_firstn.
  set (total := total_len (delivered s)) in *.
  unfold recv_body.
  destruct (recv_loop_enough (Z.to_nat (total - 20)) body_closed (total - 20) [] s1)
    as (s2 & Hb & Hd2 & Hne2).
  - change (len (@nil byte)) with 0. lia.
  - rewrite Hd1, length_skipn. change (len (@nil byte)) with 0.
    unfold len in *. lia.
  - rewrite Hb. change (len (@nil byte)) with 0 in *.
    rewrite Z.sub_0_r in *. exists s2. rewrite Hd2, Hd1, skipn_skipn.
    replace (Z.to_nat (total - 20) + 20)%nat
      with (Z.to_nat (Z.max 20 total)) by lia.
    repeat split; auto.
    f_equal. f_equal. cbn [app].
    rewrite <- (firstn_skipn 20 (delivered s)) at 3.
    rewrite firstn_app, firstn_firstn, length_firstn.
    unfold len in H20.
    replace (Nat.min (Z.to_nat (Z.max 20 total)) 20) with 20%nat by lia.
    replace (Z.to_nat (Z.max 20 total) - Nat.min 20 (length (delivered s)))%nat
      with (Z.to_nat (total - 20)) by lia.
    reflexivity.
Qed.

Lemma recv_one_diameter_body_short s :
  20 <= len (delivered s) ->
  len (delivered s) < total_len (delivered s) ->
  recv_one_diameter s = Raise (ConnectionError body_closed).
Proof.
  intros H20 Htot. unfold recv_one_diameter.
  destruct (recv_header_enough s H20) as (s1 & Hh & Hd1 & _).
  rewrite Hh, total_len_firstn. unfold recv_body.
  rewrite recv_loop_short; [reflexivity| |];
    change (len (@nil byte)) with 0; [lia|].
  rewrite Hd1, length_skipn. unfold len in *. lia.
Qed.

Lemma closes_early_dec (d : bytes) : {closes_early d} + {~ closes_early d}.
Proof.
  unfold closes_early.
  destruct (Z_lt_dec (len d) 20); [left; lia|].
  destruct (Z_lt_dec (len d) (total_len d)); [left; lia | right; lia].
Defined.

Lemma total_len_app (msg rest : bytes) :
  20 <= len msg -> total_len (msg ++ rest) = total_len msg.
Proof.
  intros H. rewrite <- total_len_firstn, <- (total_len_firstn msg).
  rewrite firstn_app. unfold len in H.
  replace (20 - length msg)%nat with 0%nat by lia.
  now rewrite firstn_0, app_nil_r.
Qed.

(** C1. A message of [L >= 20] bytes whose header bytes 1..3 hold [L],
    delivered in any number of non-empty chunks (possibly followed, even in
    the same chunk, by later bytes [rest] of the stream), is returned whole
    by [recv_one_diameter]: the header loop stops with exactly the first 20
    bytes, the length is read from them, the body loop stops with exactly the
    [L - 20] bytes that follow, the result is the [L] bytes of the message,
    and everything after the message is still in the socket. *)
Theorem recv_one_diameter_reassembles
    (msg rest : bytes) (chunks : list bytes) (log : list Z) :
  20 <= len msg ->
  total_len msg = len msg ->
  nonempty_chunks chunks ->
  concat chunks = msg ++ rest ->
  exists s1 s2,
    recv_header (mkSocket chunks log) = Return (firstn 20 msg, s1)
    /\ total_len (firstn 20 msg) = len msg
    /\ recv_body (len msg) s1 = Return (skipn 20 msg, s2)
    /\ recv_one_diameter (mkSocket chunks log) = Return (msg, s2)
    /\ concat (pending s2) = rest.
Proof.
  intros H20 Hlen Hne Hcat.
  set (s := mkSocket chunks log).
  assert (Hd : delivered s = msg ++ rest).
  { unfold delivered, s. cbn [pending].
    now rewrite delivered_nonempty_chunks. }
  assert (Hl : (20 <= length msg)%nat) by (unfold len in H20; lia).
  assert (H20' : 20 <= len (delivered s)).
  { rewrite Hd, len_app. pose proof (len_nonneg rest). lia. }
  destruct (recv_header_enough s H20') as (s1 & Hh & Hd1 & Hne1).
  assert (Hf : firstn 20 (delivered s) = firstn 20 msg).
  { rewrite Hd, firstn_app.
    replace (20 - length msg)%nat with 0%nat by lia.
    now rewrite firstn_0, app_nil_r. }
  rewrite Hf in Hh.
  assert (Hs : delivered s1 = skipn 20 msg ++ rest).
  { rewrite Hd1, Hd, skipn_app.
    replace (20 - length msg)%nat with 0%nat by lia.
    reflexivity. }
  destruct (recv_loop_enough (Z.to_nat (len msg - 20)) body_closed
              (len msg - 20) [] s1) as (s2 & Hb & Hd2 & Hne2).
  { change (len (@nil byte)) with 0. lia. }
  { change (len (@nil byte)) with 0. rewrite Hs, length_app, length_skipn.
    unfold len. lia. }
  change (len (@nil byte)) with 0 in Hb, Hd2. rewrite Z.sub_0_r in Hb, Hd2.
  assert (Hk : Z.to_nat (len msg - 20) = length (skipn 20 msg)).
  { rewrite length_skipn. unfold len. lia. }
  assert (Hfst : firstn (Z.to_nat (len msg - 20)) (skipn 20 msg ++ rest)
                 = skipn 20 msg).
  { now rewrite Hk, firstn_app, Nat.sub_diag, firstn_0, firstn_all, app_nil_r. }
  assert (Hskp : skipn (Z.to_nat (len msg - 20)) (skipn 20 msg ++ rest) = rest).
  { now rewrite Hk, skipn_app, Nat.sub_diag, skipn_all, skipn_O. }
  rewrite Hs, Hfst in Hb. rewrite Hs, Hskp in Hd2. cbn [app] in Hb.
  exists s1, s2. repeat split.
  - exact Hh.
  - now rewrite total_len_firstn.
  - exact Hb.
  - unfold recv_one_diameter. rewrite Hh, total_len_firstn, Hlen.
    fold s in Hh. unfold recv_body in Hb |- *. rewrite Hb.
    now rewrite firstn_skipn.
  - rewrite <- Hd2. symmetry. apply delivered_nonempty_chunks.
    apply Hne2, Hne1. exact Hne.
Qed.

(** C6. [recv_one_diameter] raises [ConnectionError] exactly when the stream
    ends before a whole message was delivered: with the header message when
    fewer than 20 bytes arrive, with the body message when the header arrives
    but fewer bytes than it declares; on every other stream it returns a
    whole message of [max 20 total_len] bytes, so an error never comes with a
    partial message and a partial message is never returned. *)
Theorem recv_one_diameter_closed_iff (s : socket) :
  ((exists msg, recv_one_diameter s = Raise (ConnectionError msg))
     <-> closes_early (delivered s))
  /\ (recv_one_diameter s = Raise (ConnectionError header_closed)
        <-> len (delivered s) < 20)
  /\ (recv_one_diameter s = Raise (ConnectionError body_closed)
        <-> 20 <= len (delivered s) /\ len (delivered s) < total_len (delivered s))
  /\ (~ closes_early (delivered s) ->
        exists m s', recv_one_diameter s = Return (m, s')
                     /\ len m = Z.max 20 (total_len (delivered s))).
Proof.
  assert (Hneq : header_closed <> body_closed) by discriminate.
  assert (Hhead : len (delivered s) < 20 ->
                  recv_one_diameter s = Raise (ConnectionError header_closed)).
  { intros H. unfold recv_one_diameter. now rewrite recv_header_short. }
  pose proof (recv_one_diameter_body_short s) as Hbody.
  assert (Hok : ~ closes_early (delivered s) ->
                exists m s', recv_one_diameter s = Return (m, s')
                     /\ len m = Z.max 20 (total_len (delivered s))).
  { intros Hn. unfold closes_early in Hn.
    destruct (recv_one_diameter_whole s) as (s2 & Hr & _); [lia | lia |].
    eexists _, s2. split; [exact Hr|].
    unfold len in *. rewrite length_firstn. lia. }
  repeat split.
  - intros [msg Hr]. destruct (closes_early_dec (delivered s)) as [|Hn]; [assumption|].
    destruct (Hok Hn) as (m & s' & Hr' & _). congruence.
  - intros [H | [H1 H2]]; eexists; [apply Hhead | apply Hbody]; assumption.
  - intros Hr. destruct (Z_lt_dec (len (delivered s)) 20) as [|Hge]; [assumption|].
    destruct (Z_lt_dec (len (delivered s)) (total_len (delivered s))) as [Hlt|Hn].
    + rewrite Hbody in Hr by lia. congruence.
    + destruct Hok as (m & s' & Hr' & _); [unfold closes_early; lia | congruence].
  - exact Hhead.
  - destruct (Z_lt_dec (len (delivered s)) 20) as [Hlt|]; [|lia].
    rewrite (Hhead Hlt) in H. congruence.
  - destruct (Z_lt_dec (len (delivered s)) 20) as [Hlt|Hge].
    + rewrite (Hhead Hlt) in H. congruence.
    + destruct (Z_lt_dec (len (delivered s)) (total_len (delivered s))); [assumption|].
      destruct Hok as (m & s' & Hr' & _); [unfold closes_early; lia | congruence].
  - intros [H1 H2]. now apply Hbody.
  - exact Hok.
Qed.

(** C10. When the first 20 bytes of the stream declare a length of at most
    20, [recv_one_diameter] returns exactly those 20 bytes and raises
    nothing; the socket it leaves is the one the header loop left, [recv]
    log included, so no [recv] was made for a body. *)
Theorem recv_one_diameter_underclaimed (s : socket) :
  20 <= len (delivered s) ->
  total_len (delivered s) <= 20 ->
  exists s1,
    recv_header s = Return (firstn 20 (delivered s), s1)
    /\ recv_one_diameter s = Return (firstn 20 (delivered s), s1)
    /\ len (firstn 20 (delivered s)) = 20.
Proof.
  intros H20 Htot.
  destruct (recv_header_enough s H20) as (s1 & Hh & _).
  exists s1. split; [exact Hh|]. split.
  - unfold recv_one_diameter. rewrite Hh, total_len_firstn.
    unfold recv_body. rewrite recv_loop_done.
    + now rewrite app_nil_r.
    + change (len (@nil byte)) with 0. lia.
  - unfold len in *. rewrite length_firstn. lia.
Qed.

(** A 24-byte message in four chunks, the last one running into the next
    message. *)
Lemma recv_one_diameter_reassembles_witness :
  20 <= len Samples.message24
  /\ concat Samples.chunks24 = Samples.message24 ++ Samples.next_bytes
  /\ exists s2,
       recv_one_diameter (mkSocket Samples.chunks24 [])
       = Return (Samples.message24, s2)
       /\ concat (pending s2) = Samples.next_bytes.
Proof.
  split; [vm_compute; discriminate|]. split; [reflexivity|].
  destruct (recv_one_diameter_reassembles
              Samples.message24 Samples.next_bytes Samples.chunks24 [])
    as (s1 & s2 & _ & _ & _ & Hr & Hrest).
  - vm_compute. discriminate.
  - reflexivity.
  - repeat constructor; discriminate.
  - reflexivity.
  - exists s2. split; assumption.
Defined.

(** A header declaring 5 bytes: the 20 header bytes come back after a single
    [recv]. *)
Lemma recv_one_diameter_underclaimed_witness :
  total_len (delivered (mkSocket Samples.underclaimed [])) = 5
  /\ exists s1,
       recv_one_diameter (mkSocket Samples.underclaimed [])
       = Return (firstn 20 (delivered (mkSocket Samples.underclaimed [])), s1)
       /\ recv_log s1 = [20].
Proof.
  split; [reflexivity|].
  destruct (recv_one_diameter_underclaimed (mkSocket Samples.underclaimed []))
    as (s1 & Hh & Hr & _).
  - vm_compute. discriminate.
  - vm_compute. discriminate.
  - exists s1. split; [exact Hr|].
    vm_compute in Hh. inversion Hh. reflexivity.
Defined.

End FramingProofs.
(** ** Credit control *)

Section GyProofs.
Import Gy Views.

Lemma recv_one_diameter_total (s : Framing.socket) :
  Framing.recv_one_diameter s <> OutOfFuel.
Proof.
  destruct (Z_lt_dec (len (Framing.delivered s)) 20) as [Hlt|Hge].
  - unfold Framing.recv_one_diameter.
    rewrite recv_header_short by assumption. discriminate.
  - destruct (Z_lt_dec (len (Framing.delivered s))
                (Framing.total_len (Framing.delivered s))) as [Hlt|Hle].
    + rewrite recv_one_diameter_body_short by lia. discriminate.
    + destruct (recv_one_diameter_whole s) as (s2 & Hr & _); [lia | lia |].
      rewrite Hr. discriminate.
Qed.

(** Sending appends the message to the wire whether or not an answer comes. *)
Lemma recv_one_diameter_run (w : world) :
  exists r w', Gy.recv_one_diameter w = (r, w')
    /\ r <> OutOfFuel /\ wire w' = wire w /\ clock w' = clock w.
Proof.
  unfold Gy.recv_one_diameter.
  pose proof (recv_one_diameter_total (sock w)) as Ht.
  destruct (Framing.recv_one_diameter (sock w)) as [[raw s']|e|];
    [| |contradiction]; eexists _, _; (split; [reflexivity|]);
    repeat split; discriminate.
Qed.

Lemma send_and_recv_run (m : sent_message) (w : world) :
  exists r w', Script1.send_and_recv m w = (r, w')
    /\ r <> OutOfFuel /\ wire w' = wire w ++ [m] /\ clock w' = clock w.
Proof.
  unfold Script1.send_and_recv, bind, sendall.
  set (w1 := mkWorld _ _ _ _).
  destruct (recv_one_diameter_run w1) as (r & w' & Hr & Hne & Hw & Hc).
  rewrite Hr. destruct r as [raw|e|]; [| |contradiction].
  - destruct (Codec.from_bytes raw); eexists _, _;
      (split; [reflexivity|]); (split; [discriminate|]); split; assumption.
  - eexists _, _; (split; [reflexivity|]); (split; [discriminate|]);
      split; assumption.
Qed.

Lemma send_and_wait_run (m : sent_message) (w : world) :
  exists r w', Script2.send_and_wait m w = (r, w')
    /\ r <> OutOfFuel /\ wire w' = wire w ++ [m] /\ clock w' = clock w.
Proof.
  unfold Script2.send_and_wait, bind, sendall.
  set (w1 := mkWorld _ _ _ _).
  destruct (recv_one_diameter_run w1) as (r & w' & Hr & Hne & Hw & Hc).
  rewrite Hr. destruct r as [raw|e|]; [| |contradiction];
    eexists _, _; (split; [reflexivity|]); (split; [discriminate|]);
    split; assumption.
Qed.

(** [Avp.new] on a number inside the range of the AVP's type, on one outside
    it, and what it returns when it returns. *)
Lemma Avp_new_int (code vendor_id n lo hi : Z) :
  value_range code vendor_id = Some (lo, hi) ->
  lo <= n < hi ->
  Avp_new code vendor_id (VInt n) = Return (mkAvp code vendor_id (VInt n)).
Proof.
  intros Hr Hn. unfold Avp_new. rewrite Hr.
  destruct (Z.leb_spec lo n); [|lia]. destruct (Z.ltb_spec n hi); [|lia].
  reflexivity.
Qed.

Lemma Avp_new_out (code vendor_id n lo hi : Z) :
  value_range code vendor_id = Some (lo, hi) ->
  ~ lo <= n < hi ->
  Avp_new code vendor_id (VInt n) = Raise AvpEncodeError.
Proof.
  intros Hr Hn. unfold Avp_new. rewrite Hr.
  destruct (Z.leb_spec lo n); [|reflexivity].
  destruct (Z.ltb_spec n hi); [lia | reflexivity].
Qed.

Lemma Avp_new_list (code vendor_id : Z) (l : list Avp) :
  Avp_new code vendor_id (VList l) = Return (mkAvp code vendor_id (VList l)).
Proof. reflexivity. Qed.

Lemma Avp_new_inv (code vendor_id : Z) (v : avp_value) (a : Avp) :
  Avp_new code vendor_id v = Return a -> a = mkAvp code vendor_id v.
Proof.
  unfold Avp_new.
  destruct v as [|z| | |]; try (intros H; inversion H; reflexivity).
  destruct (value_range code vendor_id) as [[lo hi]|];
    [|intros H; inversion H; reflexivity].
  destruct ((lo <=? z) && (z <? hi));
    intros H; inversion H; reflexivity.
Qed.

Lemma build_mscc_ok (requested used rr : Z) :
  0 <= requested < 2 ^ 64 ->
  0 <= used < 2 ^ 64 ->
  - 2 ^ 31 <= rr < 2 ^ 31 ->
  Script2.build_mscc requested used rr = Return (mscc_tree requested used rr).
Proof.
  intros Hq Hu Hr. unfold Script2.build_mscc, Script2.split_in_out, and_then.
  rewrite (Avp_new_int 421 0 requested 0 (2 ^ 64) eq_refl Hq).
  cbv beta iota. rewrite Avp_new_list. cbv beta iota.
  rewrite (Avp_new_int 421 0 used 0 (2 ^ 64) eq_refl Hu).
  assert (Hi : 0 <= used / 4 < 2 ^ 64).
  { split; [apply Z.div_pos; lia|].
    apply Z.div_lt_upper_bound; lia. }
  assert (Ho : 0 <= used - used / 4 < 2 ^ 64).
  { assert (used / 4 <= used) by (apply Z.div_le_upper_bound; lia). lia. }
  rewrite (Avp_new_int 412 0 _ 0 (2 ^ 64) eq_refl Hi).
  rewrite (Avp_new_int 414 0 _ 0 (2 ^ 64) eq_refl Ho).
  cbv beta iota. rewrite Avp_new_list. cbv beta iota.
  rewrite (Avp_new_int 432 0 Script2.RATING_GROUP 0 (2 ^ 32) eq_refl)
    by (unfold Script2.RATING_GROUP; lia).
  rewrite (Avp_new_int constants.AVP_TGPP_3GPP_REPORTING_REASON
             constants.VENDOR_TGPP rr (- 2 ^ 31) (2 ^ 31) eq_refl Hr).
  reflexivity.
Qed.

(** [build_mscc] raises as soon as the used total does not fit
    CC-Total-Octets, an Unsigned64. *)
Lemma build_mscc_raises (requested used rr : Z) :
  0 <= requested < 2 ^ 64 ->
  ~ 0 <= used < 2 ^ 64 ->
  Script2.build_mscc requested used rr = Raise AvpEncodeError.
Proof.
  intros Hq Hu. unfold Script2.build_mscc, Script2.split_in_out, and_then.
  rewrite (Avp_new_int 421 0 requested 0 (2 ^ 64) eq_refl Hq).
  cbv beta iota. rewrite Avp_new_list. cbv beta iota.
  rewrite (Avp_new_out 421 0 used 0 (2 ^ 64) eq_refl Hu).
  reflexivity.
Qed.

(** What [build_mscc] returns, when it returns, is that tree. *)
Lemma build_mscc_inv (requested used rr : Z) (m : Avp) :
  Script2.build_mscc requested used rr = Return m ->
  m = mscc_tree requested used rr.
Proof.
  unfold Script2.build_mscc, Script2.split_in_out, and_then.
  repeat (rewrite ?Avp_new_list; cbv beta iota;
          match goal with
          | |- match Avp_new ?c ?v (VInt ?n) with _ => _ end = _ -> _ =>
              let E := fresh "E" in
              destruct (Avp_new c v (VInt n)) eqn:E;
              [apply Avp_new_inv in E; subst
              | intros; discriminate | intros; discriminate]
          end).
  rewrite ?Avp_new_list. intros H. inversion H. reflexivity.
Qed.

(** [build_ccr] of the first script always returns, touches nothing but the
    clock, and gives the request the type and number it was asked for; the
    Reporting-Reason is 3 on an update and 2 otherwise. *)
Lemma build_ccr1_run (T : timing) (t n u : Z) (w : world) :
  exists c w', Script1.build_ccr T t n u w = (Return c, w')
    /\ later 3 w w'
    /\ is_ccr t n (if t =? constants.E_CC_REQUEST_TYPE_UPDATE_REQUEST
                   then 3 else 2) c.
Proof.
  cbv beta iota zeta
    delta [Script1.build_ccr Script1.add_common_ccr_avps bind time_time ret].
  eexists _, _. split; [reflexivity|]. split; repeat split.
Qed.

(** [build_ccr] of the second script returns when the usage fits its AVP,
    touches nothing but the clock, and gives the request the type, number
    and Reporting-Reason it was asked for. *)
Lemma build_ccr2_run (T : timing) (sid : string) (t n u rr : Z) (w : world) :
  0 <= u < 2 ^ 64 ->
  - 2 ^ 31 <= rr < 2 ^ 31 ->
  exists c w', Script2.build_ccr T sid t n u rr w = (Return c, w')
    /\ later 3 w w'
    /\ is_ccr t n rr c
    /\ mscc_avps c = children (mscc_tree Script2.DEFAULT_OCTETS u rr).
Proof.
  intros Hu Hrr.
  assert (Hm := build_mscc_ok Script2.DEFAULT_OCTETS u rr
                  ltac:(unfold Script2.DEFAULT_OCTETS; lia) Hu Hrr).
  cbv beta iota zeta
    delta [Script2.build_ccr Script2.add_common_ccr_avps bind time_time ret
           lift].
  rewrite Hm.
  eexists _, _. split; [reflexivity|]. split; repeat split.
Qed.

Ltac shape :=
  repeat (apply Forall2_cons || apply Forall2_nil);
  first [exact I | assumption].

Lemma bind_eq {A B} (m : M A) (k : A -> M B) (w w' : world) (r : outcome A) :
  m w = (r, w') ->
  bind m k w = match r with
               | Return a => k a w'
               | Raise e => (Raise e, w')
               | OutOfFuel => (OutOfFuel, w')
               end.
Proof. intros H. unfold bind. now rewrite H. Qed.

(** Every run of the first script's [main] ends by returning or raising,
    having sent a prefix of the session; all of it when it returns. *)
Lemma main1_run T s clk n r w' :
  Script1.main T (mkWorld s [] clk n) = (r, w') ->
  r <> OutOfFuel
  /\ exists k, sent_prefix k (wire w') /\ (forall x, r = Return x -> k = 4%nat).
Proof.
  intros H. unfold Script1.main in H.
  destruct (send_and_recv_run (SentCER Script1.build_cer) (mkWorld s [] clk n))
    as (r1 & w1 & H1 & Hne1 & Hw1 & _).
  rewrite (bind_eq _ _ _ _ _ H1) in H. cbn [wire app] in Hw1.
  destruct r1 as [a1|e1|]; [| |contradiction].
  2:{ inversion H; subst. split; [discriminate|]. exists 1%nat.
      split; [|discriminate]. split; [lia|]. rewrite Hw1. cbn [firstn session_shape].
      shape. }
  destruct (build_ccr1_run T constants.E_CC_REQUEST_TYPE_INITIAL_REQUEST 0
              Script1.USED_I_TOTAL w1) as (ci & w2 & H2 & (_ & Hw2 & _) & Hci).
  rewrite (bind_eq _ _ _ _ _ H2) in H.
  destruct (send_and_recv_run (SentCCR ci) w2)
    as (r3 & w3 & H3 & Hne3 & Hw3 & _).
  rewrite (bind_eq _ _ _ _ _ H3) in H. rewrite Hw2, Hw1 in Hw3. cbn [app] in Hw3.
  destruct r3 as [a3|e3|]; [| |contradiction].
  2:{ inversion H; subst. split; [discriminate|]. exists 2%nat.
      split; [|discriminate]. split; [lia|]. rewrite Hw3. cbn [firstn session_shape].
      shape. }
  destruct (build_ccr1_run T constants.E_CC_REQUEST_TYPE_UPDATE_REQUEST 1
              Script1.USED_U_TOTAL w3) as (cu & w4 & H4 & (_ & Hw4 & _) & Hcu).
  rewrite (bind_eq _ _ _ _ _ H4) in H.
  destruct (send_and_recv_run (SentCCR cu) w4)
    as (r5 & w5 & H5 & Hne5 & Hw5 & _).
  rewrite (bind_eq _ _ _ _ _ H5) in H. rewrite Hw4, Hw3 in Hw5. cbn [app] in Hw5.
  destruct r5 as [a5|e5|]; [| |contradiction].
  2:{ inversion H; subst. split; [discriminate|]. exists 3%nat.
      split; [|discriminate]. split; [lia|]. rewrite Hw5. cbn [firstn session_shape].
      shape. }
  destruct (build_ccr1_run T constants.E_CC_REQUEST_TYPE_TERMINATION_REQUEST 2
              Script1.USED_T_TOTAL w5) as (ct & w6 & H6 & (_ & Hw6 & _) & Hct).
  rewrite (bind_eq _ _ _ _ _ H6) in H.
  destruct (send_and_recv_run (SentCCR ct) w6)
    as (r7 & w7 & H7 & Hne7 & Hw7 & _).
  rewrite (bind_eq _ _ _ _ _ H7) in H. rewrite Hw6, Hw5 in Hw7. cbn [app] in Hw7.
  assert (Hshape : sent_prefix 4 (wire w7)).
  { split; [lia|]. rewrite Hw7. cbn [firstn session_shape]. shape. }
  destruct r7 as [a7|e7|]; [| |contradiction]; inversion H; subst;
    (split; [discriminate|]); exists 4%nat; split; auto.
Qed.

(** What a prefix of the session says about the requests in it. *)
Lemma sent_prefix_ccrs k l :
  sent_prefix k l ->
  length (ccrs l) = (k - 1)%nat
  /\ (forall c, nth_error (ccrs l) 0 = Some c ->
        is_ccr constants.E_CC_REQUEST_TYPE_INITIAL_REQUEST 0 2 c)
  /\ (forall c, nth_error (ccrs l) 1 = Some c ->
        is_ccr constants.E_CC_REQUEST_TYPE_UPDATE_REQUEST 1 3 c)
  /\ (forall c, nth_error (ccrs l) 2 = Some c ->
        is_ccr constants.E_CC_REQUEST_TYPE_TERMINATION_REQUEST 2 2 c).
Proof.
  intros [Hk H].
  assert (Hcer : forall m, sent_is_cer m -> exists x, m = SentCER x).
  { intros [x|c] Hm; [now exists x | contradiction]. }
  assert (Hccr : forall t n rr m, sent_is_ccr t n rr m ->
                 exists c, m = SentCCR c /\ is_ccr t n rr c).
  { intros t n rr [x|c] Hm; [contradiction | now exists c]. }
  destruct k as [|[|[|[|[|k]]]]]; try lia; cbn [firstn session_shape] in H;
    repeat match goal with
           | H : Forall2 _ (_ :: _) _ |- _ => inversion H; subst; clear H
           | H : Forall2 _ [] _ |- _ => inversion H; subst; clear H
           | H : sent_is_cer _ |- _ => apply Hcer in H; destruct H as [? ->]
           | H : sent_is_ccr _ _ _ _ |- _ =>
               apply Hccr in H; destruct H as (? & -> & ?)
           end;
    (split; [reflexivity|]); (split; [|split]); intros cc Hcc;
    cbn in Hcc; inversion Hcc; subst; assumption.
Qed.

Lemma usage_step_continue elapsed used used' :
  Script2.usage_step elapsed used = inr used' ->
  used' = Z.min Script2.DEFAULT_OCTETS (used + Script2.SIM_STEP_BYTES)
  /\ used < Script2.DEFAULT_OCTETS
  /\ elapsed < Script2.VALIDITY_SECONDS.
Proof.
  unfold Script2.usage_step.
  destruct (Z.geb_spec used Script2.DEFAULT_OCTETS) as [Hu|Hu]; [discriminate|].
  destruct (Z.geb_spec elapsed Script2.VALIDITY_SECONDS) as [He|He];
    [discriminate|].
  intros Heq. inversion Heq. lia.
Qed.

Lemma usage_step_break elapsed used why :
  Script2.usage_step elapsed used = inl why ->
  (why = Script2.QuotaExhausted /\ Script2.DEFAULT_OCTETS <= used)
  \/ (why = Script2.ValidityExpired /\ used < Script2.DEFAULT_OCTETS
      /\ Script2.VALIDITY_SECONDS <= elapsed).
Proof.
  unfold Script2.usage_step.
  destruct (Z.geb_spec used Script2.DEFAULT_OCTETS) as [Hu|Hu];
    [intros Heq; inversion Heq; left; split; [reflexivity | lia]|].
  destruct (Z.geb_spec elapsed Script2.VALIDITY_SECONDS) as [He|He];
    [|discriminate].
  intros Heq. inversion Heq. right. repeat split; lia.
Qed.

Lemma last_default {A} (l : list A) (a b : A) :
  l <> [] -> last l a = last l b.
Proof.
  induction l as [|x l IH]; [contradiction|]. intros _.
  destruct l as [|y l]; [reflexivity|].
  change (last (y :: l) a = last (y :: l) b). apply IH. discriminate.
Qed.

(** With enough fuel the usage loop returns; it touches nothing but the
    clock, and what it returns is the last of the values [used_total] goes
    through. *)
Lemma usage_loop_run T fuel : forall start used w,
  (1 <= fuel)%nat ->
  Script2.DEFAULT_OCTETS - used
    <= (Z.of_nat fuel - 1) * Script2.SIM_STEP_BYTES ->
  exists u why w',
    Script2.usage_loop T fuel start used w = (Return (u, why), w')
    /\ wire w' = wire w
    /\ u = last (Script2.usage_values
                   (Script2.elapsed_readings T fuel start w) used) used
    /\ (why = Script2.QuotaExhausted <-> Script2.DEFAULT_OCTETS <= u).
Proof.
  induction fuel as [|fuel IH]; intros start used w Hfuel Hgap; [lia|].
  cbn [Script2.usage_loop]. unfold bind at 1, time_time at 1.
  unfold Script2.elapsed_readings. cbn [seq map Script2.usage_values].
  rewrite Nat.add_0_r.
  destruct (Script2.usage_step
              (Script2.elapsed_seconds T (clock w (ticks w)) start) used)
    as [why|used'] eqn:Hstep.
  - eexists _, _, _. split; [reflexivity|]. cbn [wire last].
    split; [reflexivity|]. split; [reflexivity|].
    apply usage_step_break in Hstep.
    destruct Hstep as [[-> ?]|(-> & ? & ?)]; split; intros; try lia;
      auto; discriminate.
  - apply usage_step_continue in Hstep. destruct Hstep as (Hu & Hlt & _).
    unfold Script2.DEFAULT_OCTETS, Script2.SIM_STEP_BYTES in *.
    set (w1 := mkWorld _ _ _ _).
    destruct (IH start used' w1) as (u & why & w' & Hrun & Hw & Hlast & Hwhy);
      [lia | lia |].
    exists u, why, w'. split; [exact Hrun|]. split; [exact Hw|].
    split; [|exact Hwhy].
    rewrite Hlast. unfold Script2.elapsed_readings.
    rewrite <- seq_shift, map_map. unfold w1. cbn [clock ticks].
    replace (map (fun i => Script2.elapsed_seconds T
                             (clock w (S (ticks w) + i)%nat) start) (seq 0 fuel))
      with (map (fun i => Script2.elapsed_seconds T
                            (clock w (ticks w + S i)%nat) start) (seq 0 fuel)).
    2:{ apply map_ext. intros i. f_equal. f_equal. lia. }
    set (vs := Script2.usage_values _ used').
    assert (Hne : vs <> []).
    { unfold vs. destruct (map _ _); cbn; [discriminate|].
      destruct (Script2.usage_step _ _); discriminate. }
    destruct vs as [|v vs']; [contradiction|].
    change (last (v :: vs') used' = last (v :: vs') used).
    apply last_default. discriminate.
Qed.

(** What the usage loop returns, when it returns, is the last of the values
    [used_total] goes through over the readings of the clock it makes. *)
Lemma usage_loop_trace T fuel : forall start used w u why w',
  Script2.usage_loop T fuel start used w = (Return (u, why), w') ->
  u = last (Script2.usage_values
              (Script2.elapsed_readings T fuel start w) used) used.
Proof.
  induction fuel as [|fuel IH]; intros start used w u why w' H;
    [discriminate|].
  cbn [Script2.usage_loop] in H. unfold bind at 1, time_time at 1 in H.
  unfold Script2.elapsed_readings. cbn [seq map Script2.usage_values].
  rewrite Nat.add_0_r.
  destruct (Script2.usage_step
              (Script2.elapsed_seconds T (clock w (ticks w)) start) used)
    as [why0|used'] eqn:Hstep.
  - inversion H; subst. reflexivity.
  - apply IH in H. rewrite H. clear Hstep H. unfold Script2.elapsed_readings.
    rewrite <- seq_shift, map_map. cbn [clock ticks].
    replace (map (fun i => Script2.elapsed_seconds T
                             (clock w (S (ticks w) + i)%nat) start) (seq 0 fuel))
      with (map (fun i => Script2.elapsed_seconds T
                            (clock w (ticks w + S i)%nat) start) (seq 0 fuel)).
    2:{ apply map_ext. intros i. f_equal. f_equal. lia. }
    set (vs := Script2.usage_values _ used').
    assert (Hne : vs <> []).
    { unfold vs. destruct (map _ _); cbn; [discriminate|].
      destruct (Script2.usage_step _ _); discriminate. }
    destruct vs as [|v vs']; [contradiction|].
    change (last (v :: vs') used' = last (v :: vs') used).
    apply last_default. discriminate.
Qed.

Lemma usage_values_head elapsed used :
  exists tl, Script2.usage_values elapsed used = used :: tl.
Proof.
  destruct elapsed as [|e rest]; cbn; [now exists []|].
  destruct (Script2.usage_step e used); eauto.
Qed.

(** The values [used_total] goes through never decrease and stay within the
    default quota. *)
Lemma usage_values_monotone elapsed : forall used,
  used <= Script2.DEFAULT_OCTETS ->
  Sorted Z.le (Script2.usage_values elapsed used)
  /\ Forall (fun v => used <= v <= Script2.DEFAULT_OCTETS)
            (Script2.usage_values elapsed used).
Proof.
  induction elapsed as [|e rest IH]; intros used Hu; cbn.
  - split; repeat constructor; lia.
  - destruct (Script2.usage_step e used) as [why|used'] eqn:Hstep.
    + split; repeat constructor; lia.
    + apply usage_step_continue in Hstep. destruct Hstep as (Heq & Hlt & _).
      assert (Hu' : used <= used' <= Script2.DEFAULT_OCTETS).
      { unfold Script2.SIM_STEP_BYTES in Heq. lia. }
      destruct (IH used') as [Hs Hf]; [lia|].
      destruct (usage_values_head rest used') as [tl Htl].
      split.
      * constructor; [exact Hs|]. rewrite Htl. constructor. lia.
      * constructor; [lia|]. eapply Forall_impl; [|exact Hf].
        cbn. intros v Hv. lia.
Qed.

Lemma Forall_last {A} (P : A -> Prop) (l : list A) (d : A) :
  Forall P l -> l <> [] -> P (last l d).
Proof.
  induction 1 as [|x l Hx Hl IH]; [contradiction|]. intros _.
  destruct l as [|y l]; [exact Hx|].
  change (P (last (y :: l) d)). apply IH. discriminate.
Qed.

(** Every run of the second script's [main] ends by returning or raising,
    having sent a prefix of the session; when it returns, all of it was sent
    and the usage it reports lies within the default quota. *)
Lemma main2_run T sid s clk n r w' :
  Script2.main T sid (mkWorld s [] clk n) = (r, w') ->
  r <> OutOfFuel
  /\ exists k, sent_prefix k (wire w')
     /\ (forall u why, r = Return (u, why) ->
           k = 4%nat
           /\ (why = Script2.QuotaExhausted <-> Script2.DEFAULT_OCTETS <= u)
           /\ 0 <= u <= Script2.DEFAULT_OCTETS).
Proof.
  intros H. unfold Script2.main in H.
  assert (Hrr2 : - 2 ^ 31 <= 2 < 2 ^ 31) by lia.
  assert (Hrr3 : - 2 ^ 31 <= 3 < 2 ^ 31) by lia.
  assert (H064 : 0 <= 0 < 2 ^ 64) by lia.
  unfold bind at 1, time_time at 1 in H. cbn [sock wire clock ticks] in H.
  set (start := clk n) in H.
  set (w0 := mkWorld s [] clk (S n)) in H.
  destruct (send_and_wait_run (SentCER Script2.build_cer) w0)
    as (r1 & w1 & H1 & Hne1 & Hw1 & _).
  rewrite (bind_eq _ _ _ _ _ H1) in H. cbn [wire app w0] in Hw1.
  destruct r1 as [a1|e1|]; [| |contradiction].
  2:{ inversion H; subst. split; [discriminate|]. exists 1%nat.
      split; [|discriminate]. split; [lia|]. rewrite Hw1.
      cbn [firstn session_shape]. shape. }
  destruct (build_ccr2_run T sid constants.E_CC_REQUEST_TYPE_INITIAL_REQUEST
              0 0 2 w1 H064 Hrr2)
    as (ci & w2 & H2 & (_ & Hw2 & _) & Hci & _).
  rewrite (bind_eq _ _ _ _ _ H2) in H.
  destruct (send_and_wait_run (SentCCR ci) w2)
    as (r3 & w3 & H3 & Hne3 & Hw3 & _).
  rewrite (bind_eq _ _ _ _ _ H3) in H. rewrite Hw2, Hw1 in Hw3. cbn [app] in Hw3.
  destruct r3 as [a3|e3|]; [| |contradiction].
  2:{ inversion H; subst. split; [discriminate|]. exists 2%nat.
      split; [|discriminate]. split; [lia|]. rewrite Hw3.
      cbn [firstn session_shape]. shape. }
  destruct (usage_loop_run T Script2.usage_fuel start 0 w3)
    as (u & why & wl & Hl & Hwl & Hu & Hwhy).
  { unfold Script2.usage_fuel. lia. }
  { unfold Script2.usage_fuel, Script2.DEFAULT_OCTETS, Script2.SIM_STEP_BYTES.
    lia. }
  assert (Hb : 0 <= u <= Script2.DEFAULT_OCTETS).
  { rewrite Hu.
    apply (Forall_last (fun v => 0 <= v <= Script2.DEFAULT_OCTETS)).
    - apply usage_values_monotone. unfold Script2.DEFAULT_OCTETS. lia.
    - destruct (usage_values_head
                  (Script2.elapsed_readings T Script2.usage_fuel start w3) 0)
        as [tl ->]. discriminate. }
  assert (Hu64 : 0 <= u < 2 ^ 64) by (unfold Script2.DEFAULT_OCTETS in Hb; lia).
  rewrite (bind_eq _ _ _ _ _ Hl) in H.
  destruct (build_ccr2_run T sid constants.E_CC_REQUEST_TYPE_UPDATE_REQUEST
              1 u 3 wl Hu64 Hrr3)
    as (cu & w4 & H4 & (_ & Hw4 & _) & Hcu & _).
  rewrite (bind_eq _ _ _ _ _ H4) in H.
  destruct (send_and_wait_run (SentCCR cu) w4)
    as (r5 & w5 & H5 & Hne5 & Hw5 & _).
  rewrite (bind_eq _ _ _ _ _ H5) in H.
  rewrite Hw4, Hwl, Hw3 in Hw5. cbn [app] in Hw5.
  destruct r5 as [a5|e5|]; [| |contradiction].
  2:{ inversion H; subst. split; [discriminate|]. exists 3%nat.
      split; [|discriminate]. split; [lia|]. rewrite Hw5.
      cbn [firstn session_shape]. shape. }
  destruct (build_ccr2_run T sid constants.E_CC_REQUEST_TYPE_TERMINATION_REQUEST
              2 u 2 w5 Hu64 Hrr2)
    as (ct & w6 & H6 & (_ & Hw6 & _) & Hct & _).
  rewrite (bind_eq _ _ _ _ _ H6) in H.
  destruct (send_and_wait_run (SentCCR ct) w6)
    as (r7 & w7 & H7 & Hne7 & Hw7 & _).
  rewrite (bind_eq _ _ _ _ _ H7) in H. rewrite Hw6, Hw5 in Hw7. cbn [app] in Hw7.
  assert (Hshape : sent_prefix 4 (wire w7)).
  { split; [lia|]. rewrite Hw7. cbn [firstn session_shape]. shape. }
  destruct r7 as [a7|e7|]; [| |contradiction]; inversion H; subst;
    (split; [discriminate|]); exists 4%nat; (split; [exact Hshape|]).
  - intros u' why' Heq. inversion Heq; subst.
    split; [reflexivity|]. split; [exact Hwhy | exact Hb].
  - discriminate.
Qed.

(** C5. In every run of either script, whatever the peer sends and whatever
    the clock shows, the requests of the session that reach the wire are
    numbered 0, 1, 2 in send order and are the initial, the update and the
    termination request in that order: the request at position [i] carries
    [cc_request_number = i]; a run that returns has sent all three. *)
Theorem request_numbers_in_send_order
    (T : timing) (sid : string) (s : Framing.socket) (clk : nat -> Z)
    (n : nat) :
  let run1 := Script1.main T (mkWorld s [] clk n) in
  let run2 := Script2.main T sid (mkWorld s [] clk n) in
  (exists k, (k <= 3)%nat
     /\ request_numbers (wire (snd run1))
        = firstn k [Some (PInt 0); Some (PInt 1); Some (PInt 2)]
     /\ request_types (wire (snd run1))
        = firstn k [Some (PInt constants.E_CC_REQUEST_TYPE_INITIAL_REQUEST);
                    Some (PInt constants.E_CC_REQUEST_TYPE_UPDATE_REQUEST);
                    Some (PInt constants.E_CC_REQUEST_TYPE_TERMINATION_REQUEST)]
     /\ (forall x, fst run1 = Return x -> k = 3%nat))
  /\ (exists k, (k <= 3)%nat
     /\ request_numbers (wire (snd run2))
        = firstn k [Some (PInt 0); Some (PInt 1); Some (PInt 2)]
     /\ request_types (wire (snd run2))
        = firstn k [Some (PInt constants.E_CC_REQUEST_TYPE_INITIAL_REQUEST);
                    Some (PInt constants.E_CC_REQUEST_TYPE_UPDATE_REQUEST);
                    Some (PInt constants.E_CC_REQUEST_TYPE_TERMINATION_REQUEST)]
     /\ (forall x, fst run2 = Return x -> k = 3%nat)).
Proof.
  assert (Hseq : forall k l, sent_prefix k l ->
            request_numbers l
            = firstn (k - 1) [Some (PInt 0); Some (PInt 1); Some (PInt 2)]
            /\ request_types l
               = firstn (k - 1)
                   [Some (PInt constants.E_CC_REQUEST_TYPE_INITIAL_REQUEST);
                    Some (PInt constants.E_CC_REQUEST_TYPE_UPDATE_REQUEST);
                    Some (PInt constants.E_CC_REQUEST_TYPE_TERMINATION_REQUEST)]).
  { intros k l Hp. pose proof Hp as [Hk _].
    destruct (sent_prefix_ccrs k l Hp) as (Hlen & H0 & H1 & H2).
    unfold request_numbers, request_types.
    destruct (ccrs l) as [|c0 [|c1 [|c2 [|c3 cs]]]]; cbn [length] in Hlen;
      try (specialize (H0 _ eq_refl); destruct H0 as (Ty0 & N0 & _));
      try (specialize (H1 _ eq_refl); destruct H1 as (Ty1 & N1 & _));
      try (specialize (H2 _ eq_refl); destruct H2 as (Ty2 & N2 & _));
      rewrite <- Hlen; cbn [map firstn]; [| | | |lia];
      repeat match goal with H : _ = Some (PInt _) |- _ => rewrite H; clear H end;
      split; reflexivity. }
  intros run1 run2. split.
  - destruct (main1_run T s clk n (fst run1) (snd run1)) as (_ & k & Hp & Hret).
    { unfold run1. apply surjective_pairing. }
    destruct (Hseq k _ Hp) as [Hn Ht]. pose proof Hp as [Hk _].
    exists (k - 1)%nat. repeat split; [lia | exact Hn | exact Ht |].
    intros x Hx. rewrite (Hret x Hx). reflexivity.
  - destruct (main2_run T sid s clk n (fst run2) (snd run2)) as (_ & k & Hp & Hret).
    { unfold run2. apply surjective_pairing. }
    destruct (Hseq k _ Hp) as [Hn Ht]. pose proof Hp as [Hk _].
    exists (k - 1)%nat. repeat split; [lia | exact Hn | exact Ht |].
    intros [u why] Hx. destruct (Hret u why Hx) as [-> _]. reflexivity.
Qed.

(** A complete run of each script against a peer that answers everything. *)
Lemma request_numbers_in_send_order_witness :
  request_numbers (wire (snd (Script1.main Samples.whole_seconds Samples.world_fast)))
  = [Some (PInt 0); Some (PInt 1); Some (PInt 2)]
  /\ request_numbers (wire (snd (Script2.main Samples.whole_seconds "sid" Samples.world_fast)))
     = [Some (PInt 0); Some (PInt 1); Some (PInt 2)].
Proof.
  destruct (request_numbers_in_send_order Samples.whole_seconds "sid" Samples.answering (fun _ => 0) 0%nat)
    as [(k1 & _ & Hn1 & _ & Hr1) (k2 & _ & Hn2 & _ & Hr2)].
  split.
  - unfold Samples.world_fast. rewrite Hn1.
    rewrite (Hr1 tt); [reflexivity | vm_compute; reflexivity].
  - unfold Samples.world_fast. rewrite Hn2.
    rewrite (Hr2 (512000, Script2.QuotaExhausted));
      [reflexivity | vm_compute; reflexivity].
Defined.

(** C2, as the code has it. The update request the second script sends
    after its usage loop always carries Reporting-Reason 3
    (QUOTA_EXHAUSTED), whichever of the two checks ended the loop; the
    exhaustion check comes first, so a pass in which the quota is used up
    ends the loop as exhaustion whatever the elapsed time. *)
Theorem ccr_u_reports_quota_exhausted
    (T : timing) (sid : string) (s : Framing.socket) (clk : nat -> Z)
    (n : nat) :
  let run := Script2.main T sid (mkWorld s [] clk n) in
  (forall c, nth_error (ccrs (wire (snd run))) 1 = Some c ->
     is_ccr constants.E_CC_REQUEST_TYPE_UPDATE_REQUEST 1
            constants.REPORTING_REASON_QUOTA_EXHAUSTED c)
  /\ (forall u why, fst run = Return (u, why) ->
        exists c, nth_error (ccrs (wire (snd run))) 1 = Some c
                  /\ reporting_reason c
                     = [VInt constants.REPORTING_REASON_QUOTA_EXHAUSTED])
  /\ (forall elapsed used,
        Script2.DEFAULT_OCTETS <= used ->
        Script2.usage_step elapsed used = inl Script2.QuotaExhausted).
Proof.
  intros run.
  destruct (main2_run T sid s clk n (fst run) (snd run)) as (_ & k & Hp & Hret).
  { unfold run. apply surjective_pairing. }
  destruct (sent_prefix_ccrs k _ Hp) as (Hlen & _ & H1 & _).
  split; [exact H1|]. split.
  - intros u why Hr. destruct (Hret u why Hr) as [-> _].
    destruct (ccrs (wire (snd run))) as [|c0 [|c1 cs]];
      cbn [length Nat.sub] in Hlen; try discriminate.
    exists c1. split; [reflexivity|]. apply (H1 c1 eq_refl).
  - intros elapsed used Hu. unfold Script2.usage_step.
    destruct (Z.geb_spec used Script2.DEFAULT_OCTETS); [reflexivity | lia].
Qed.

(** A run that ends its loop on exhaustion, and a pass with both conditions
    true. *)
Lemma ccr_u_reports_quota_exhausted_witness :
  option_map reporting_reason
    (nth_error (ccrs (wire (snd (Script2.main Samples.whole_seconds "sid" Samples.world_fast)))) 1)
  = Some [VInt 3]
  /\ Script2.usage_step 1800 512000 = inl Script2.QuotaExhausted.
Proof.
  destruct (ccr_u_reports_quota_exhausted Samples.whole_seconds "sid" Samples.answering (fun _ => 0) 0%nat)
    as (_ & Hret & Hprec).
  split.
  - destruct (Hret 512000 Script2.QuotaExhausted) as (c & Hc & Hrr);
      [vm_compute; reflexivity|].
    unfold Samples.world_fast. rewrite Hc. cbn [option_map]. now rewrite Hrr.
  - apply Hprec. vm_compute. discriminate.
Defined.

(** C2, the claim as written fails: when the validity timer ends the loop
    (1800 seconds elapsed, nothing used of a quota of 512000), the update
    request still carries Reporting-Reason 3, QUOTA_EXHAUSTED, not a reason
    for the timer. *)
Lemma timer_expiry_reports_quota_exhausted :
  fst (Script2.main Samples.whole_seconds "sid" Samples.world_slow)
  = Return (0, Script2.ValidityExpired)
  /\ 0 < Script2.DEFAULT_OCTETS
  /\ option_map reporting_reason
       (nth_error (ccrs (wire (snd (Script2.main Samples.whole_seconds "sid" Samples.world_slow)))) 1)
     = Some [VInt constants.REPORTING_REASON_QUOTA_EXHAUSTED].
Proof. vm_compute. repeat split; reflexivity. Qed.

(** C3, as the code has it. In every run of either script the first request
    of the session, the initial one, is numbered 0 and its MSCC carries one
    Reporting-Reason AVP, of value 2 (FINAL). *)
Theorem ccr_i_number_and_reason
    (T : timing) (sid : string) (s : Framing.socket) (clk : nat -> Z)
    (n : nat) :
  let run1 := Script1.main T (mkWorld s [] clk n) in
  let run2 := Script2.main T sid (mkWorld s [] clk n) in
  (forall c, nth_error (ccrs (wire (snd run1))) 0 = Some c ->
     is_ccr constants.E_CC_REQUEST_TYPE_INITIAL_REQUEST 0
            constants.REPORTING_REASON_FINAL c)
  /\ (forall c, nth_error (ccrs (wire (snd run2))) 0 = Some c ->
        is_ccr constants.E_CC_REQUEST_TYPE_INITIAL_REQUEST 0
               constants.REPORTING_REASON_FINAL c).
Proof.
  intros run1 run2. split.
  - destruct (main1_run T s clk n (fst run1) (snd run1)) as (_ & k & Hp & _).
    { unfold run1. apply surjective_pairing. }
    apply (sent_prefix_ccrs k _ Hp).
  - destruct (main2_run T sid s clk n (fst run2) (snd run2)) as (_ & k & Hp & _).
    { unfold run2. apply surjective_pairing. }
    apply (sent_prefix_ccrs k _ Hp).
Qed.

(** A run cut short after the initial request was sent. *)
Lemma ccr_i_number_and_reason_witness :
  option_map reporting_reason
    (nth_error (ccrs (wire (snd (Script1.main Samples.whole_seconds Samples.world_closing)))) 0)
  = Some [VInt 2].
Proof.
  destruct (ccr_i_number_and_reason Samples.whole_seconds "sid" (Framing.mkSocket [Samples.answer20] [])
              (fun _ => 0) 0%nat) as [H1 _].
  change (mkWorld (Framing.mkSocket [Samples.answer20] []) [] (fun _ => 0) 0%nat)
    with Samples.world_closing in H1.
  destruct (nth_error (ccrs (wire (snd (Script1.main Samples.whole_seconds Samples.world_closing)))) 0)
    as [c|] eqn:Hc.
  - destruct (H1 c eq_refl) as (_ & _ & Hrr). cbn [option_map]. now rewrite Hrr.
  - vm_compute in Hc. discriminate.
Defined.

(** C3, the claim as written fails: the initial request of each script does
    carry a Reporting-Reason AVP in its MSCC. *)
Lemma ccr_i_carries_reporting_reason :
  option_map reporting_reason_avps
    (nth_error (ccrs (wire (snd (Script1.main Samples.whole_seconds Samples.world_fast)))) 0)
  = Some [mkAvp 872 10415 (VInt 2)]
  /\ option_map reporting_reason_avps
       (nth_error (ccrs (wire (snd (Script2.main Samples.whole_seconds "sid" Samples.world_fast)))) 0)
     = Some [mkAvp 872 10415 (VInt 2)]
  /\ option_map cc_request_number
       (nth_error (ccrs (wire (snd (Script1.main Samples.whole_seconds Samples.world_fast)))) 0)
     = Some (Some (PInt 0)).
Proof. vm_compute. repeat split; reflexivity. Qed.

(** C8, with the bound the code needs. [split_in_out] is a function of
    [total] alone and its two parts add up to [total]; when [total] fits an
    Unsigned64, [0 <= total < 2^64], [build_mscc] returns an MSCC whose
    Used-Service-Unit group holds CC-Total-Octets (421) [total],
    CC-Input-Octets (412) the first part and CC-Output-Octets (414) the
    second; for any other [total] it raises [AvpEncodeError] and there is no
    MSCC.

    Modelled from the spec: what [Avp.new] accepts is the [diameter]
    package's, not among the sources. *)
Theorem split_in_out_in_mscc (total requested reason : Z) :
  0 <= requested < 2 ^ 64 ->
  - 2 ^ 31 <= reason < 2 ^ 31 ->
  let inp := fst (Script2.split_in_out total) in
  let out := snd (Script2.split_in_out total) in
  inp = total / 4
  /\ inp + out = total
  /\ (0 <= total < 2 ^ 64 ->
      exists mscc,
        Script2.build_mscc requested total reason = Return mscc
        /\ find 446 0 (children mscc)
           = [mkAvp 446 0 (VList [mkAvp 421 0 (VInt total);
                                  mkAvp 412 0 (VInt inp);
                                  mkAvp 414 0 (VInt out)])])
  /\ (~ 0 <= total < 2 ^ 64 ->
      Script2.build_mscc requested total reason = Raise AvpEncodeError).
Proof.
  intros Hq Hr inp out. split; [reflexivity|]. split.
  { unfold inp, out, Script2.split_in_out. cbn [fst snd]. lia. }
  split.
  - intros Ht. exists (mscc_tree requested total reason).
    split; [apply build_mscc_ok; assumption | reflexivity].
  - intros Ht. apply build_mscc_raises; assumption.
Qed.

(** The update request of a run that used up the quota: 512000 octets,
    128000 in and 384000 out. *)
Lemma split_in_out_in_mscc_witness :
  Script2.split_in_out 512000 = (128000, 384000)
  /\ exists mscc,
       Script2.build_mscc Script2.DEFAULT_OCTETS 512000 3 = Return mscc
       /\ find 446 0 (children mscc)
          = [mkAvp 446 0 (VList [mkAvp 421 0 (VInt 512000);
                                 mkAvp 412 0 (VInt 128000);
                                 mkAvp 414 0 (VInt 384000)])].
Proof.
  split; [reflexivity|].
  refine (proj1 (proj2 (proj2
            (split_in_out_in_mscc 512000 Script2.DEFAULT_OCTETS 3 _ _))) _);
    vm_compute; split; congruence.
Defined.

(** C8, the claim as written fails: [2^64] is a non-negative total, its two
    parts add up to it, and [build_mscc] makes no MSCC for it. *)
Lemma build_mscc_raises_beyond_unsigned64 :
  0 <= 2 ^ 64
  /\ fst (Script2.split_in_out (2 ^ 64)) + snd (Script2.split_in_out (2 ^ 64))
     = 2 ^ 64
  /\ Script2.build_mscc Script2.DEFAULT_OCTETS (2 ^ 64) 3
     = Raise AvpEncodeError
  /\ forall mscc,
       Script2.build_mscc Script2.DEFAULT_OCTETS (2 ^ 64) 3 <> Return mscc.
Proof.
  split; [vm_compute; discriminate|]. split; [reflexivity|].
  split; [reflexivity|]. intros mscc. vm_compute. discriminate.
Qed.

End GyProofs.

(** ** Codec *)

Section CodecProofs.
Import Codec.

Lemma length_int_to_bytes_big (width : nat) : forall n,
  length (int_to_bytes_big width n) = width.
Proof.
  induction width as [|w IH]; intros n; cbn [int_to_bytes_big]; [reflexivity|].
  rewrite length_app, IH. cbn. lia.
Qed.

Lemma length_encode_header (h : MessageHeader) : length (encode_header h) = 20%nat.
Proof.
  unfold encode_header.
  repeat (rewrite length_app || rewrite length_int_to_bytes_big).
  reflexivity.
Qed.

Lemma Z_of_byte_of_Z (z : Z) : Z_of_byte (byte_of_Z z) = z mod 256.
Proof.
  unfold Z_of_byte, byte_of_Z.
  assert (Hr : 0 <= z mod 256 < 256) by (apply Z.mod_pos_bound; lia).
  destruct (Byte.of_N (Z.to_N (z mod 256))) as [b|] eqn:Hb.
  - apply Byte.to_of_N in Hb. rewrite Hb. lia.
  - apply Byte.of_N_None_iff in Hb. lia.
Qed.

(** The three length bytes of an encoded header read back as the length. *)
Lemma total_len_encode_header (h : MessageHeader) (body : bytes) :
  0 <= length_ h < 2 ^ 24 ->
  Framing.total_len (encode_header h ++ body) = length_ h.
Proof.
  intros Hr. unfold Framing.total_len, encode_header, slice, int_from_bytes_big.
  cbn [int_to_bytes_big app skipn firstn Nat.sub fold_left].
  fold (Z_of_byte (byte_of_Z (length_ h / 256 / 256))).
  fold (Z_of_byte (byte_of_Z (length_ h / 256))).
  fold (Z_of_byte (byte_of_Z (length_ h))).
  rewrite !Z_of_byte_of_Z.
  change (2 ^ 24) with 16777216 in Hr.
  Z.to_euclidean_division_equations. lia.
Qed.

(** C4. The bytes [as_bytes] returns are as many as the length it records in
    the header of the message. *)
Theorem as_bytes_length (m : Message) :
  len (fst (as_bytes m)) = length_ (header (snd (as_bytes m))).
Proof.
  unfold as_bytes. cbn [fst snd header length_ with_length].
  rewrite len_app. unfold len at 1. rewrite length_encode_header. lia.
Qed.

(** An encoded message of less than [2^24] bytes declares its own length in
    header bytes 1..3, so the framing of [recv_one_diameter] applies to it. *)
Lemma as_bytes_framed (m : Message) :
  len (fst (as_bytes m)) < 2 ^ 24 ->
  20 <= len (fst (as_bytes m))
  /\ Framing.total_len (fst (as_bytes m)) = len (fst (as_bytes m)).
Proof.
  intros Hlt. pose proof (as_bytes_length m) as Hlen.
  unfold as_bytes in *. cbn [fst snd header length_ with_length] in *.
  pose proof (len_nonneg (encode_avps (avps m))).
  split; [lia|].
  rewrite total_len_encode_header; cbn [length_ with_length]; lia.
Qed.

(** C7, as the code has it. The CER of [send_cer.py] (vendor 6527,
    authentication application 4, Supported-Vendor-Id 10415 then 5535
    appended) encodes to bytes that decode to the message encoded: both
    Supported-Vendor-Id AVPs are there, in the order they were appended, and
    there is no Inband-Security-Id, which [build_cer] never sets; set before
    encoding, as the two session scripts set it, it reads
    NO_INBAND_SECURITY after decoding.

    Modelled from the spec: the codec is the [diameter] package's, not
    among the sources. *)
Theorem cer_round_trip :
  from_bytes SendCer.build_cer = Ok (snd (as_bytes SendCer.build_cer_message))
  /\ match from_bytes SendCer.build_cer with
     | Ok m =>
         supported_vendor_id m = [10415; 5535]
         /\ inband_security_id m = None
         /\ vendor_id_of m = Some 6527
         /\ auth_application_id m = Some 4
         /\ map code (avps m) = map code (avps SendCer.build_cer_message)
     | Err _ => False
     end
  /\ match from_bytes
             (fst (as_bytes
                     (set_inband_security_id
                        constants.E_INBAND_SECURITY_ID_NO_INBAND_SECURITY
                        SendCer.build_cer_message))) with
     | Ok m =>
         supported_vendor_id m = [10415; 5535]
         /\ inband_security_id m
            = Some constants.E_INBAND_SECURITY_ID_NO_INBAND_SECURITY
     | Err _ => False
     end.
Proof. vm_compute. repeat split; reflexivity. Qed.

(** C7, the claim as written fails: the 156 bytes of the CER of
    [send_cer.py] decode to a message without Inband-Security-Id, so
    [inband_security_id] does not report NO_INBAND_SECURITY. *)
Lemma cer_has_no_inband_security_id :
  len SendCer.build_cer = 156
  /\ exists m,
       from_bytes SendCer.build_cer = Ok m
       /\ supported_vendor_id m = [10415; 5535]
       /\ find_avps constants.AVP_INBAND_SECURITY_ID m = []
       /\ inband_security_id m
          <> Some constants.E_INBAND_SECURITY_ID_NO_INBAND_SECURITY.
Proof.
  split; [vm_compute; reflexivity|].
  eexists. split; [vm_compute; reflexivity|].
  split; [reflexivity|]. split; [reflexivity|]. discriminate.
Qed.

End CodecProofs.

(** ** More on framing *)

Section FramingMore.
Import Framing Frames.

Lemma closes_earlyb_spec (d : bytes) :
  closes_earlyb d = true <-> closes_early d.
Proof.
  unfold closes_earlyb, closes_early.
  rewrite orb_true_iff, !Z.ltb_lt. lia.
Qed.

(** The bytes a call returns and the bytes it leaves, from the bytes the
    socket delivers. *)
Lemma recv_one_diameter_frame (s : socket) :
  returned (recv_one_diameter s) = first_frame (delivered s)
  /\ forall m s', recv_one_diameter s = Return (m, s') ->
       m = firstn (frame_length (delivered s)) (delivered s)
       /\ delivered s' = skipn (frame_length (delivered s)) (delivered s)
       /\ closes_earlyb (delivered s) = false
       /\ (nonempty_chunks (pending s) -> nonempty_chunks (pending s')).
Proof.
  unfold first_frame, frame_length.
  destruct (Z.ltb_spec (len (delivered s)) 20) as [Hlt|Hge].
  - unfold recv_one_diameter. rewrite recv_header_short by assumption.
    split; [reflexivity | discriminate].
  - destruct (Z.ltb_spec (len (delivered s)) (total_len (delivered s)))
      as [Hlt|Hle].
    + rewrite recv_one_diameter_body_short by assumption.
      split; [reflexivity | discriminate].
    + destruct (recv_one_diameter_whole s Hge Hle) as (s2 & Hr & Hd & Hne).
      rewrite Hr. split; [reflexivity|].
      intros m s' Heq. inversion Heq; subst. repeat split; auto.
      unfold closes_earlyb. apply orb_false_iff.
      split; apply Z.ltb_ge; assumption.
Qed.

(** A whole message at the head of the stream is what the next call
    returns, and the call leaves what follows it. *)
Lemma recv_one_diameter_framed (s : socket) (msg rest : bytes) :
  well_framed msg ->
  delivered s = msg ++ rest ->
  exists s',
    recv_one_diameter s = Return (msg, s')
    /\ delivered s' = rest
    /\ (nonempty_chunks (pending s) -> nonempty_chunks (pending s')).
Proof.
  intros [H20 Hlen] Hd.
  assert (Htot : total_len (delivered s) = len msg).
  { rewrite Hd, total_len_app by assumption. exact Hlen. }
  pose proof (len_nonneg rest) as Hrest.
  destruct (recv_one_diameter_whole s) as (s' & Hr & Hd' & Hne).
  { rewrite Hd, len_app. lia. }
  { rewrite Htot, Hd, len_app. lia. }
  rewrite Htot, Hd in Hr, Hd'.
  replace (Z.to_nat (Z.max 20 (len msg))) with (length msg) in Hr, Hd'
    by (unfold len in *; lia).
  rewrite firstn_app, Nat.sub_diag, firstn_0, firstn_all, app_nil_r in Hr.
  rewrite skipn_app, Nat.sub_diag, skipn_all, skipn_O in Hd'.
  exists s'. auto.
Qed.

(** X1. Two whole messages that arrive back to back, cut into chunks in any
    way (a chunk may hold the end of one and the start of the other), are
    returned by two successive calls, each exactly, and what follows the
    second is still in the socket. *)
Theorem recv_one_diameter_back_to_back
    (msg1 msg2 rest : bytes) (chunks : list bytes) (log : list Z) :
  well_framed msg1 ->
  well_framed msg2 ->
  nonempty_chunks chunks ->
  concat chunks = msg1 ++ msg2 ++ rest ->
  exists s1 s2,
    recv_one_diameter (mkSocket chunks log) = Return (msg1, s1)
    /\ recv_one_diameter s1 = Return (msg2, s2)
    /\ concat (pending s2) = rest.
Proof.
  intros H1 H2 Hne Hcat.
  destruct (recv_one_diameter_framed (mkSocket chunks log) msg1 (msg2 ++ rest) H1)
    as (s1 & Hr1 & Hd1 & Hne1).
  { unfold delivered. cbn [pending].
    now rewrite delivered_nonempty_chunks. }
  destruct (recv_one_diameter_framed s1 msg2 rest H2 Hd1)
    as (s2 & Hr2 & Hd2 & Hne2).
  exists s1, s2. repeat split; [exact Hr1 | exact Hr2 |].
  rewrite <- Hd2. symmetry. apply delivered_nonempty_chunks. auto.
Qed.

(** Two 20-byte messages in one chunk, followed by three more bytes. *)
Lemma recv_one_diameter_back_to_back_witness :
  exists s1 s2,
    recv_one_diameter
      (mkSocket [Samples.answer20 ++ Samples.answer20 ++ Samples.next_bytes] [])
    = Return (Samples.answer20, s1)
    /\ recv_one_diameter s1 = Return (Samples.answer20, s2)
    /\ concat (pending s2) = Samples.next_bytes.
Proof.
  apply recv_one_diameter_back_to_back.
  - split; [vm_compute; discriminate | reflexivity].
  - split; [vm_compute; discriminate | reflexivity].
  - repeat constructor; discriminate.
  - cbn [concat]. apply app_nil_r.
Defined.

(** X2. What [recv_one_diameter] gives its caller depends only on the bytes
    the stream delivers, not on how they are cut into chunks: it is the
    first frame of those bytes, the header error when fewer than 20 arrive,
    the body error when fewer arrive than the header declares. *)
Theorem recv_one_diameter_is_first_frame (s : socket) :
  returned (recv_one_diameter s) = first_frame (delivered s).
Proof. apply recv_one_diameter_frame. Qed.

Lemma recv_logs (n : Z) (s : socket) :
  recv_log (snd (recv n s)) = n :: recv_log s.
Proof.
  unfold recv. destruct (pending s) as [|[|b c] rest]; reflexivity.
Qed.

(** The calls a loop makes before it returns: each asks for at least one
    byte and at most the bytes still missing, and there are no more calls
    than bytes gained. *)
Lemma recv_loop_log fuel : forall msg target buf s r s',
  recv_loop fuel msg target buf s = Return (r, s') ->
  exists asked,
    recv_log s' = asked ++ recv_log s
    /\ Forall (fun n => 1 <= n <= target - len buf) asked
    /\ (length buf + length asked <= length r)%nat
    /\ (asked = [] -> r = buf)
    /\ target <= len r.
Proof.
  induction fuel as [|fuel IH]; intros msg target buf s r s' H; cbn in H;
    destruct (Z.ltb_spec (len buf) target) as [Hlt|Hge]; try discriminate.
  - inversion H; subst. exists []. repeat split; auto. cbn. lia.
  - destruct (recv (target - len buf) s) as [chunk s1] eqn:Hrecv.
    pose proof (recv_logs (target - len buf) s) as Hlog.
    rewrite Hrecv in Hlog. cbn [snd] in Hlog.
    destruct chunk as [|b chunk]; [discriminate|].
    apply IH in H. destruct H as (asked & Ha & Hf & Hn & _ & Ht).
    exists (asked ++ [target - len buf]).
    rewrite Ha, Hlog, <- app_assoc. split; [reflexivity|].
    rewrite len_app in Hf. unfold len at 2 in Hf. cbn [length] in Hf.
    rewrite !length_app in *. cbn [length] in *.
    split; [|split; [|split]].
    + apply Forall_app. split.
      * eapply Forall_impl; [|exact Hf]. cbn. intros n Hn'. lia.
      * repeat constructor; lia.
    + lia.
    + intros Hnil. destruct asked; discriminate.
    + exact Ht.
  - inversion H; subst. exists []. repeat split; auto. cbn. lia.
Qed.

(** X3. A call that returns has asked [recv] only for positive sizes, never
    for more than the longer of the header and the body, and has made at
    least one call and at most as many calls as it returns bytes. *)
Theorem recv_one_diameter_calls (s s' : socket) (m : bytes) :
  recv_one_diameter s = Return (m, s') ->
  exists asked,
    recv_log s' = asked ++ recv_log s
    /\ Forall (fun n => 1 <= n <= Z.max 20 (len m - 20)) asked
    /\ (1 <= length asked <= length m)%nat.
Proof.
  unfold recv_one_diameter, recv_header, recv_body. intros H.
  destruct (recv_loop 20 header_closed 20 [] s) as [[header s1]|e|] eqn:Hh;
    try discriminate.
  destruct (recv_loop _ body_closed (total_len header - 20) [] s1)
    as [[body s2]|e|] eqn:Hb; try discriminate.
  inversion H; subst. clear H.
  apply recv_loop_log in Hh.
  destruct Hh as (ah & Hla & Hfa & Hna & Hnil & Hth).
  apply recv_loop_log in Hb.
  destruct Hb as (ab & Hlb & Hfb & Hnb & _ & Htb).
  change (len (@nil byte)) with 0 in *. cbn [length] in *.
  assert (Hah : ah <> []).
  { intros ->. rewrite (Hnil eq_refl) in Hth. cbn in Hth. lia. }
  exists (ab ++ ah). rewrite Hlb, Hla, app_assoc. split; [reflexivity|].
  rewrite len_app, !length_app. unfold len in *. split.
  - apply Forall_app. split; (eapply Forall_impl; [|eassumption]);
      cbv beta; intros n Hn; lia.
  - destruct ah; [contradiction|]. cbn [length] in *. lia.
Qed.

(** The 24-byte message in four chunks: 1, 6 and 13 bytes for the header
    through calls for 20, 19 and 13, then 2 and 2 bytes of body through
    calls for 4 and 2. *)
Lemma recv_one_diameter_calls_witness :
  recv_one_diameter (mkSocket Samples.chunks24 [])
  = Return (Samples.message24, mkSocket [[x01; x00; x00]] [2; 4; 13; 19; 20])
  /\ exists asked,
       [2; 4; 13; 19; 20] = asked ++ []
       /\ Forall (fun n => 1 <= n <= Z.max 20 (len Samples.message24 - 20)) asked
       /\ (1 <= length asked <= length Samples.message24)%nat.
Proof.
  assert (H : recv_one_diameter (mkSocket Samples.chunks24 [])
              = Return (Samples.message24,
                        mkSocket [[x01; x00; x00]] [2; 4; 13; 19; 20]))
    by (vm_compute; reflexivity).
  split; [exact H|].
  exact (recv_one_diameter_calls _ _ _ H).
Defined.


Lemma int_from_bytes_big_bound (b : bytes) :
  0 <= int_from_bytes_big b < 256 ^ len b.
Proof.
  unfold int_from_bytes_big.
  assert (H : forall acc, 0 <= acc ->
            0 <= fold_left (fun a x => a * 256 + Z.of_N (Byte.to_N x)) b acc
              < (acc + 1) * 256 ^ len b).
  { induction b as [|x b IH]; intros acc Hacc; cbn [fold_left].
    - change (len (@nil byte)) with 0. lia.
    - pose proof (Byte.to_N_bounded x) as Hx.
      specialize (IH (acc * 256 + Z.of_N (Byte.to_N x))).
      replace (len (x :: b)) with (Z.succ (len b))
        by (unfold len; cbn [length]; lia).
      rewrite Z.pow_succ_r by apply len_nonneg.
      pose proof (Z.pow_pos_nonneg 256 (len b) ltac:(lia) (len_nonneg b)).
      nia. }
  specialize (H 0). lia.
Qed.

Lemma total_len_bound (d : bytes) : 0 <= total_len d < 2 ^ 24.
Proof.
  unfold total_len. pose proof (int_from_bytes_big_bound (slice 1 4 d)) as H.
  assert (Hl : 0 <= len (slice 1 4 d) <= 3).
  { unfold len, slice. rewrite length_firstn. cbn [Nat.sub]. lia. }
  assert (256 ^ len (slice 1 4 d) <= 256 ^ 3)
    by (apply Z.pow_le_mono_r; lia).
  change (2 ^ 24) with (256 ^ 3). lia.
Qed.

Lemma total_len_prefix (k : nat) (d : bytes) :
  (20 <= k)%nat -> total_len (firstn k d) = total_len d.
Proof.
  intros Hk. rewrite <- total_len_firstn, firstn_firstn.
  replace (Nat.min 20 k) with 20%nat by lia. apply total_len_firstn.
Qed.

(** X4. A message a call returns has at least the 20 bytes of a header and
    fewer than [2^24] bytes, and is as long as the longer of the header and
    what its own bytes 1..3 declare. *)
Theorem recv_one_diameter_size (s s' : socket) (m : bytes) :
  recv_one_diameter s = Return (m, s') ->
  20 <= len m < 2 ^ 24
  /\ len m = Z.max 20 (total_len m).
Proof.
  intros H.
  destruct (recv_one_diameter_frame s) as [_ Hf].
  destruct (Hf m s' H) as (Hm & _ & Hc & _).
  unfold closes_earlyb in Hc. apply orb_false_iff in Hc.
  destruct Hc as [H20 Htot]. apply Z.ltb_ge in H20, Htot.
  pose proof (total_len_bound (delivered s)) as Hb.
  assert (Hlen : len m = Z.max 20 (total_len (delivered s))).
  { rewrite Hm. unfold len, frame_length in *. rewrite length_firstn. lia. }
  assert (Hown : total_len m = total_len (delivered s)).
  { rewrite Hm. apply total_len_prefix. unfold frame_length. lia. }
  rewrite Hown. change (2 ^ 24) with 16777216 in *. lia.
Qed.

Lemma recv_one_diameter_size_witness :
  20 <= len Samples.message24 < 2 ^ 24
  /\ len Samples.message24 = Z.max 20 (total_len Samples.message24).
Proof.
  apply (recv_one_diameter_size (mkSocket Samples.chunks24 [])
           (mkSocket [[x01; x00; x00]] [2; 4; 13; 19; 20])).
  vm_compute. reflexivity.
Defined.

End FramingMore.

(** ** More on credit control *)

Section GyMore.
Import Gy Views.



(** The usage loop from a whole number [a] of steps: it ends at a whole
    number [b] of steps after [b - a + 1] readings of the clock, the first
    [b - a] of which show less than the validity time; it ends by exhaustion
    exactly when [b] is 10, and by the timer only when the last reading
    shows the validity time or more. *)
Lemma usage_loop_steps T fuel : forall (a : nat) start w,
  (a <= 10)%nat ->
  (10 - a < fuel)%nat ->
  exists (b : nat) why,
    (a <= b <= 10)%nat
    /\ Script2.usage_loop T fuel start (Z.of_nat a * Script2.SIM_STEP_BYTES) w
       = (Return (Z.of_nat b * Script2.SIM_STEP_BYTES, why),
          mkWorld (sock w) (wire w) (clock w) (b - a + 1 + ticks w))
    /\ (why = Script2.QuotaExhausted <-> b = 10%nat)
    /\ (forall i, (i < b - a)%nat -> elapsed_at T start w i < Script2.VALIDITY_SECONDS)
    /\ (why = Script2.ValidityExpired ->
        Script2.VALIDITY_SECONDS <= elapsed_at T start w (b - a)).
Proof.
  induction fuel as [|fuel IH]; intros a start w Ha Hfuel; [lia|].
  cbn [Script2.usage_loop]. unfold bind at 1, time_time at 1.
  destruct (Script2.usage_step
              (Script2.elapsed_seconds T (clock w (ticks w)) start)
              (Z.of_nat a * Script2.SIM_STEP_BYTES)) as [why|used'] eqn:Hstep.
  - exists a, why. split; [lia|].
    replace (a - a + 1 + ticks w)%nat with (S (ticks w)) by lia.
    split; [reflexivity|].
    apply usage_step_break in Hstep.
    unfold Script2.DEFAULT_OCTETS, Script2.SIM_STEP_BYTES in Hstep.
    unfold elapsed_at. rewrite Nat.sub_diag, Nat.add_0_r.
    destruct Hstep as [[-> Hu]|(-> & Hu & He)].
    + repeat split; intros; try lia; discriminate.
    + repeat split; intros; try lia; try discriminate; assumption.
  - apply usage_step_continue in Hstep. destruct Hstep as (Hu & Hlt & He).
    unfold Script2.DEFAULT_OCTETS, Script2.SIM_STEP_BYTES in Hu, Hlt.
    assert (Ha' : (a < 10)%nat) by lia.
    assert (Hnext : used' = Z.of_nat (S a) * Script2.SIM_STEP_BYTES).
    { unfold Script2.SIM_STEP_BYTES. lia. }
    rewrite Hnext.
    set (w1 := mkWorld (sock w) (wire w) (clock w) (S (ticks w))).
    destruct (IH (S a) start w1) as (b & why & Hb & Hrun & Hwhy & Hbelow & Hexp);
      [lia | lia |].
    exists b, why. split; [lia|]. split.
    + rewrite Hrun. unfold w1. cbn [sock wire clock ticks].
      do 2 f_equal. lia.
    + split; [exact Hwhy|]. unfold elapsed_at in *. cbn [clock ticks w1] in *.
      split.
      * intros i Hi. destruct i as [|i].
        -- rewrite Nat.add_0_r. exact He.
        -- replace (ticks w + S i)%nat with (S (ticks w) + i)%nat by lia.
           apply Hbelow. lia.
      * intros Hw. specialize (Hexp Hw).
        replace (ticks w + (b - a))%nat with (S (ticks w) + (b - S a))%nat by lia.
        exact Hexp.
Qed.

(** The usage loop from nothing used. *)
Lemma usage_loop_from_zero (T : timing) (start : Z) (w : world) :
  exists (b : nat) why,
    (b <= 10)%nat
    /\ Script2.usage_loop T Script2.usage_fuel start 0 w
       = (Return (Z.of_nat b * Script2.SIM_STEP_BYTES, why),
          mkWorld (sock w) (wire w) (clock w) (b + 1 + ticks w))
    /\ (why = Script2.QuotaExhausted <-> b = 10%nat)
    /\ (forall i, (i < b)%nat -> elapsed_at T start w i < Script2.VALIDITY_SECONDS)
    /\ (why = Script2.ValidityExpired ->
        Script2.VALIDITY_SECONDS <= elapsed_at T start w b).
Proof.
  destruct (usage_loop_steps T Script2.usage_fuel 0 start w)
    as (b & why & Hb & Hrun & Hwhy & Hbelow & Hexp).
  { lia. }
  { unfold Script2.usage_fuel. lia. }
  exists b, why. rewrite Nat.sub_0_r in *.
  repeat split; try lia; try apply Hwhy; auto.
Qed.

(** X6. The usage loop of the second script, whatever the clock shows, ends
    at a whole number [b <= 10] of steps of [SIM_STEP_BYTES] (so the [min]
    never cuts a step short) after reading the clock [b + 1] times; the
    first [b] readings show less than [VALIDITY_SECONDS]; it ends by
    exhaustion exactly when [b = 10], and otherwise the last reading shows
    [VALIDITY_SECONDS] or more. *)
Theorem usage_loop_outcome (T : timing) (start : Z) (w : world) :
  exists (b : nat) why,
    (b <= 10)%nat
    /\ Script2.usage_loop T Script2.usage_fuel start 0 w
       = (Return (Z.of_nat b * Script2.SIM_STEP_BYTES, why),
          mkWorld (sock w) (wire w) (clock w) (b + 1 + ticks w))
    /\ (why = Script2.QuotaExhausted <-> b = 10%nat)
    /\ (forall i, (i < b)%nat -> elapsed_at T start w i < Script2.VALIDITY_SECONDS)
    /\ (why = Script2.ValidityExpired ->
        Script2.VALIDITY_SECONDS <= elapsed_at T start w b).
Proof. apply usage_loop_from_zero. Qed.

(** Sending a message and waiting for its answer: the message goes on the
    wire, then one frame is taken off the stream, or the stream ends. *)
Lemma send_and_wait_step (m : sent_message) (w : world) :
  if Frames.closes_earlyb (Framing.delivered (sock w))
  then exists msg,
         Script2.send_and_wait m w
         = (Raise (ConnectionError msg),
            mkWorld (sock w) (wire w ++ [m]) (clock w) (ticks w))
  else exists raw s',
         Script2.send_and_wait m w
         = (Return raw, mkWorld s' (wire w ++ [m]) (clock w) (ticks w))
         /\ Framing.delivered s'
            = skipn (Frames.frame_length (Framing.delivered (sock w)))
                    (Framing.delivered (sock w)).
Proof.
  unfold Script2.send_and_wait, bind, sendall, Gy.recv_one_diameter.
  cbn [sock wire clock ticks].
  destruct (recv_one_diameter_frame (sock w)) as [Hret Hleft].
  unfold Frames.first_frame, Frames.closes_earlyb in *.
  destruct (Framing.recv_one_diameter (sock w)) as [[raw s']|e|] eqn:Hr;
    cbn [Frames.returned] in Hret.
  - destruct (Hleft raw s' eq_refl) as (_ & Hd & Hc & _).
    unfold Frames.closes_earlyb in Hc. rewrite Hc. eauto.
  - destruct (len (Framing.delivered (sock w)) <? 20);
      [inversion Hret; cbn; eauto|].
    destruct (len (Framing.delivered (sock w))
              <? Framing.total_len (Framing.delivered (sock w)));
      [inversion Hret; cbn; eauto | discriminate].
  - exfalso. apply (recv_one_diameter_total (sock w)). exact Hr.
Qed.

Lemma build_ccr2_world (T : timing) (sid : string) (t n u rr : Z) (w : world) :
  0 <= u < 2 ^ 64 ->
  - 2 ^ 31 <= rr < 2 ^ 31 ->
  exists c,
    Script2.build_ccr T sid t n u rr w
    = (Return c, mkWorld (sock w) (wire w) (clock w) (3 + ticks w))
    /\ built2 T sid t n u rr c.
Proof.
  intros Hu Hrr.
  assert (Hm := build_mscc_ok Script2.DEFAULT_OCTETS u rr
                  ltac:(unfold Script2.DEFAULT_OCTETS; lia) Hu Hrr).
  cbv beta iota zeta
    delta [Script2.build_ccr Script2.add_common_ccr_avps bind time_time ret
           lift].
  rewrite Hm.
  eexists. split; [reflexivity|].
  exists w. eexists.
  cbv beta iota zeta
    delta [Script2.build_ccr Script2.add_common_ccr_avps bind time_time ret
           lift].
  rewrite Hm. reflexivity.
Qed.

(** Every run of the second script, by the number [c] of whole answers the
    peer delivers: the messages sent are the first [c + 1] of the CER and
    the three requests [build_ccr] makes (at most all four); with four
    answers the run returns what the usage loop ended with, with fewer it
    raises [ConnectionError]; the usage is the last value of [used_total]
    over the readings of the clock the loop makes, the fifth reading of the
    run onwards, against the first. *)
Lemma main2_full T sid s clk n :
  let run := Script2.main T sid (mkWorld s [] clk n) in
  let c := Frames.complete_frames 4 (Framing.delivered s) in
  exists (b : nat) why ci cu ct,
    (b <= 10)%nat
    /\ (why = Script2.QuotaExhausted <-> b = 10%nat)
    /\ built2 T sid constants.E_CC_REQUEST_TYPE_INITIAL_REQUEST 0 0 2 ci
    /\ built2 T sid constants.E_CC_REQUEST_TYPE_UPDATE_REQUEST 1
              (Z.of_nat b * Script2.SIM_STEP_BYTES) 3 cu
    /\ built2 T sid constants.E_CC_REQUEST_TYPE_TERMINATION_REQUEST 2
              (Z.of_nat b * Script2.SIM_STEP_BYTES) 2 ct
    /\ wire (snd run)
       = firstn (Nat.min 4 (S c))
           [SentCER Script2.build_cer; SentCCR ci; SentCCR cu; SentCCR ct]
    /\ (c = 4%nat ->
        fst run = Return (Z.of_nat b * Script2.SIM_STEP_BYTES, why))
    /\ ((c < 4)%nat -> exists msg, fst run = Raise (ConnectionError msg))
    /\ (c = 4%nat ->
        Z.of_nat b * Script2.SIM_STEP_BYTES
        = last (Script2.usage_values
                  (map (fun i => Script2.elapsed_seconds T
                                   (clk (n + 4 + i)%nat) (clk n))
                       (seq 0 Script2.usage_fuel)) 0) 0).
Proof.
  intros run c. unfold c. clear c.
  assert (Hrr2 : - 2 ^ 31 <= 2 < 2 ^ 31) by lia.
  assert (Hrr3 : - 2 ^ 31 <= 3 < 2 ^ 31) by lia.
  assert (Hur : forall b : nat, (b <= 10)%nat ->
                0 <= Z.of_nat b * Script2.SIM_STEP_BYTES < 2 ^ 64)
    by (intros b0 Hb0; unfold Script2.SIM_STEP_BYTES; lia).
  assert (H064 : 0 <= 0 < 2 ^ 64) by lia.
  remember run as R eqn:HR. unfold run in HR. clear run.
  unfold Script2.main in HR.
  unfold bind at 1, time_time at 1 in HR. cbn [sock wire clock ticks] in HR.
  set (start := clk n) in HR.
  set (w0 := mkWorld s [] clk (S n)) in HR.
  (* requests for the runs that stop before building them *)
  destruct (build_ccr2_world T sid constants.E_CC_REQUEST_TYPE_INITIAL_REQUEST
              0 0 2 w0 H064 Hrr2) as (di & _ & Hdi).
  destruct (build_ccr2_world T sid constants.E_CC_REQUEST_TYPE_UPDATE_REQUEST
              1 (Z.of_nat 0 * Script2.SIM_STEP_BYTES) 3 w0
              (Hur 0%nat ltac:(lia)) Hrr3) as (du & _ & Hdu).
  destruct (build_ccr2_world T sid constants.E_CC_REQUEST_TYPE_TERMINATION_REQUEST
              2 (Z.of_nat 0 * Script2.SIM_STEP_BYTES) 2 w0
              (Hur 0%nat ltac:(lia)) Hrr2) as (dt & _ & Hdt).
  assert (Hwhy0 : Script2.ValidityExpired = Script2.QuotaExhausted <-> 0%nat = 10%nat)
    by (split; [discriminate | lia]).
  (* CER *)
  pose proof (send_and_wait_step (SentCER Script2.build_cer) w0) as H1.
  cbn [Frames.complete_frames].
  change (Framing.delivered (sock w0)) with (Framing.delivered s) in H1.
  destruct (Frames.closes_earlyb (Framing.delivered s)).
  { destruct H1 as (msg & H1). rewrite (bind_eq _ _ _ _ _ H1) in HR.
    exists 0%nat, Script2.ValidityExpired, di, du, dt. rewrite HR.
    repeat split; try assumption; try lia; try apply Hwhy0;
      intros; cbn [fst]; try lia; eauto. }
  destruct H1 as (raw1 & s1 & H1 & Hd1). rewrite (bind_eq _ _ _ _ _ H1) in HR.
  set (d1 := skipn _ (Framing.delivered s)) in *.
  match type of H1 with _ = (_, ?w) => set (w1 := w) in * end.
  (* CCR-I *)
  destruct (build_ccr2_world T sid constants.E_CC_REQUEST_TYPE_INITIAL_REQUEST
              0 0 2 w1 H064 Hrr2) as (ci & H2 & Hci).
  rewrite (bind_eq _ _ _ _ _ H2) in HR.
  match type of H2 with _ = (_, ?w) => set (w2 := w) in * end.
  pose proof (send_and_wait_step (SentCCR ci) w2) as H3.
  change (Framing.delivered (sock w2)) with (Framing.delivered s1) in H3.
  rewrite Hd1 in H3.
  destruct (Frames.closes_earlyb d1).
  { destruct H3 as (msg & H3). rewrite (bind_eq _ _ _ _ _ H3) in HR.
    exists 0%nat, Script2.ValidityExpired, ci, du, dt. rewrite HR.
    repeat split; try assumption; try lia; try apply Hwhy0;
      intros; cbn [fst]; try lia; eauto. }
  destruct H3 as (raw3 & s3 & H3 & Hd3). rewrite (bind_eq _ _ _ _ _ H3) in HR.
  set (d3 := skipn _ d1) in *.
  match type of H3 with _ = (_, ?w) => set (w3 := w) in * end.
  (* usage loop *)
  destruct (usage_loop_from_zero T start w3) as (b & why & Hb & Hl & Hwhy & _).
  assert (Htr : Z.of_nat b * Script2.SIM_STEP_BYTES
                = last (Script2.usage_values
                          (map (fun i => Script2.elapsed_seconds T
                                           (clk (n + 4 + i)%nat) (clk n))
                               (seq 0 Script2.usage_fuel)) 0) 0).
  { rewrite (usage_loop_trace T _ _ _ _ _ _ _ Hl) at 1.
    unfold Script2.elapsed_readings.
    change (clock w3) with clk. change (ticks w3) with (3 + S n)%nat.
    unfold start. do 2 f_equal. apply map_ext. intros i.
    do 2 f_equal. lia. }
  rewrite (bind_eq _ _ _ _ _ Hl) in HR.
  match type of Hl with _ = (_, ?w) => set (wl := w) in * end.
  (* CCR-U *)
  destruct (build_ccr2_world T sid constants.E_CC_REQUEST_TYPE_UPDATE_REQUEST
              1 (Z.of_nat b * Script2.SIM_STEP_BYTES) 3 wl (Hur b Hb) Hrr3)
    as (cu & H4 & Hcu).
  rewrite (bind_eq _ _ _ _ _ H4) in HR.
  match type of H4 with _ = (_, ?w) => set (w4 := w) in * end.
  destruct (build_ccr2_world T sid constants.E_CC_REQUEST_TYPE_TERMINATION_REQUEST
              2 (Z.of_nat b * Script2.SIM_STEP_BYTES) 2 w0 (Hur b Hb) Hrr2)
    as (dt' & _ & Hdt').
  pose proof (send_and_wait_step (SentCCR cu) w4) as H5.
  change (Framing.delivered (sock w4)) with (Framing.delivered s3) in H5.
  rewrite Hd3 in H5.
  destruct (Frames.closes_earlyb d3).
  { destruct H5 as (msg & H5). rewrite (bind_eq _ _ _ _ _ H5) in HR.
    exists b, why, ci, cu, dt'. rewrite HR.
    repeat split; try assumption; try lia; try apply Hwhy;
      intros; cbn [fst]; try lia; eauto. }
  destruct H5 as (raw5 & s5 & H5 & Hd5). rewrite (bind_eq _ _ _ _ _ H5) in HR.
  set (d5 := skipn _ d3) in *.
  match type of H5 with _ = (_, ?w) => set (w5 := w) in * end.
  (* CCR-T *)
  destruct (build_ccr2_world T sid constants.E_CC_REQUEST_TYPE_TERMINATION_REQUEST
              2 (Z.of_nat b * Script2.SIM_STEP_BYTES) 2 w5 (Hur b Hb) Hrr2)
    as (ct & H6 & Hct).
  rewrite (bind_eq _ _ _ _ _ H6) in HR.
  match type of H6 with _ = (_, ?w) => set (w6 := w) in * end.
  pose proof (send_and_wait_step (SentCCR ct) w6) as H7.
  change (Framing.delivered (sock w6)) with (Framing.delivered s5) in H7.
  rewrite Hd5 in H7.
  destruct (Frames.closes_earlyb d5).
  { destruct H7 as (msg & H7). rewrite (bind_eq _ _ _ _ _ H7) in HR.
    exists b, why, ci, cu, ct. rewrite HR.
    repeat split; try assumption; try lia; try apply Hwhy;
      intros; cbn [fst]; try lia; eauto. }
  destruct H7 as (raw7 & s7 & H7 & Hd7). rewrite (bind_eq _ _ _ _ _ H7) in HR.
  exists b, why, ci, cu, ct. rewrite HR. unfold ret.
  repeat split; try assumption; try lia; try apply Hwhy;
    intros; cbn [fst]; try lia; eauto.
Qed.

Lemma complete_frames_le (k : nat) : forall d,
  (Frames.complete_frames k d <= k)%nat.
Proof.
  induction k as [|k IH]; intros d; cbn; [lia|].
  destruct (Frames.closes_earlyb d); [lia|].
  specialize (IH (skipn (Frames.frame_length d) d)). lia.
Qed.



(** What every request [build_ccr] of the second script makes carries. *)
Lemma built2_carries T sid t n u rr c :
  built2 T sid t n u rr c ->
  used_total_octets c = [VInt u]
  /\ used_input_octets c = [VInt (fst (Script2.split_in_out u))]
  /\ used_output_octets c = [VInt (snd (Script2.split_in_out u))]
  /\ requested_total_octets c = [VInt Script2.DEFAULT_OCTETS]
  /\ getattr "session_id" (fields c) = Some (PStr sid)
  /\ getattr "application_id" (header c)
     = Some (PInt constants.APP_DIAMETER_CREDIT_CONTROL_APPLICATION)
  /\ subscription_id c
     = [(constants.E_SUBSCRIPTION_ID_TYPE_END_USER_E164, Script2.SUB_E164);
        (constants.E_SUBSCRIPTION_ID_TYPE_END_USER_IMSI, Script2.SUB_IMSI);
        (constants.E_SUBSCRIPTION_ID_TYPE_END_USER_NAI, Script2.SUB_NAI)].
Proof.
  intros (w & w' & H).
  cbv beta iota zeta
    delta [Script2.build_ccr Script2.add_common_ccr_avps bind time_time ret
           lift] in H.
  destruct (Script2.build_mscc Script2.DEFAULT_OCTETS u rr) as [m|e|] eqn:Hm;
    try discriminate.
  apply build_mscc_inv in Hm. inversion H; subst. repeat split.
Qed.

(** X8. When the second script returns with usage [u], the initial request
    it sent reports 0 octets used and the update and termination requests
    both report [u], split into input and output by [split_in_out]; each of
    the three requests [DEFAULT_OCTETS]; [u] is a whole number of steps, the
    whole quota exactly when the loop ended by exhaustion and less when it
    ended by the timer. *)
Theorem main2_usage_reported
    (T : timing) (sid : string) (s : Framing.socket) (clk : nat -> Z)
    (n : nat) (u : Z) (why : Script2.trigger) :
  let run := Script2.main T sid (mkWorld s [] clk n) in
  fst run = Return (u, why) ->
  map used_total_octets (ccrs (wire (snd run))) = [[VInt 0]; [VInt u]; [VInt u]]
  /\ map used_input_octets (ccrs (wire (snd run)))
     = [[VInt 0]; [VInt (u / 4)]; [VInt (u / 4)]]
  /\ map used_output_octets (ccrs (wire (snd run)))
     = [[VInt 0]; [VInt (u - u / 4)]; [VInt (u - u / 4)]]
  /\ map requested_total_octets (ccrs (wire (snd run)))
     = [[VInt 512000]; [VInt 512000]; [VInt 512000]]
  /\ (exists b, 0 <= b <= 10 /\ u = b * Script2.SIM_STEP_BYTES)
  /\ (why = Script2.QuotaExhausted -> u = Script2.DEFAULT_OCTETS)
  /\ (why = Script2.ValidityExpired -> u < Script2.DEFAULT_OCTETS).
Proof.
  intros run Hrun.
  destruct (main2_full T sid s clk n)
    as (b & why' & ci & cu & ct & Hb & Hwhy & Hci & Hcu & Hct & Hw & Hret
        & Hraise & _).
  fold run in Hw, Hret, Hraise.
  pose proof (complete_frames_le 4 (Framing.delivered s)) as Hc.
  destruct (Nat.eq_dec (Frames.complete_frames 4 (Framing.delivered s)) 4)
    as [Heq|Hne].
  2:{ destruct Hraise as [msg Hm]; [lia | congruence]. }
  rewrite (Hret Heq) in Hrun. inversion Hrun; subst u why'. clear Hrun.
  rewrite Heq in Hw. cbn [Nat.min firstn] in Hw. rewrite Hw. cbn [ccrs flat_map app map].
  destruct (built2_carries _ _ _ _ _ _ _ Hci) as (Ti & Ii & Oi & Ri & _).
  destruct (built2_carries _ _ _ _ _ _ _ Hcu) as (Tu & Iu & Ou & Ru & _).
  destruct (built2_carries _ _ _ _ _ _ _ Hct) as (Tt & It & Ot & Rt & _).
  rewrite Ti, Tu, Tt, Ii, Iu, It, Oi, Ou, Ot, Ri, Ru, Rt.
  unfold Script2.split_in_out, Script2.DEFAULT_OCTETS, Script2.SIM_STEP_BYTES.
  cbn [fst snd].
  repeat split.
  - exists (Z.of_nat b). lia.
  - intros Hq. apply Hwhy in Hq. subst b. reflexivity.
  - intros He. assert (b <> 10%nat).
    { intros Hb10. apply Hwhy in Hb10. congruence. }
    lia.
Qed.

Lemma main2_usage_reported_witness :
  map used_total_octets
    (ccrs (wire (snd (Script2.main Samples.whole_seconds "sid" Samples.world_fast))))
  = [[VInt 0]; [VInt 512000]; [VInt 512000]]
  /\ map used_input_octets
       (ccrs (wire (snd (Script2.main Samples.whole_seconds "sid" Samples.world_fast))))
     = [[VInt 0]; [VInt 128000]; [VInt 128000]].
Proof.
  destruct (main2_usage_reported Samples.whole_seconds "sid" Samples.answering (fun _ => 0) 0%nat
              512000 Script2.QuotaExhausted) as (H1 & H2 & _).
  - vm_compute. reflexivity.
  - split; [exact H1 | exact H2].
Defined.

Lemma land_u32 (x : Z) : Z.land x 0xFFFFFFFF = x mod 2 ^ 32.
Proof. change 0xFFFFFFFF with (Z.ones 32). apply Z.land_ones. lia. Qed.

(** X9. Whatever the clock shows, and whatever the conversions [int(t)]
    and [int(t * 1000)] make of a reading, the hop-by-hop and end-to-end
    identifiers [build_ccr] puts in the header (in either script) are
    unsigned 32-bit numbers: the first reading of the call converted to
    seconds, and the second converted to milliseconds, each reduced modulo
    [2^32]. *)
Theorem build_ccr_identifiers
    (T : timing) (sid : string) (t n u rr : Z) (w w1 w2 : world)
    (c1 c2 : CreditControlRequest) :
  Script1.build_ccr T t n u w = (Return c1, w1) ->
  Script2.build_ccr T sid t n u rr w = (Return c2, w2) ->
  let hop := seconds T (clock w (ticks w)) mod 2 ^ 32 in
  let e2e := millis T (clock w (S (ticks w))) mod 2 ^ 32 in
  getattr "hop_by_hop_identifier" (header c1) = Some (PInt hop)
  /\ getattr "end_to_end_identifier" (header c1) = Some (PInt e2e)
  /\ getattr "hop_by_hop_identifier" (header c2) = Some (PInt hop)
  /\ getattr "end_to_end_identifier" (header c2) = Some (PInt e2e)
  /\ 0 <= hop < 2 ^ 32
  /\ 0 <= e2e < 2 ^ 32.
Proof.
  intros H1 H2 hop e2e.
  cbv beta iota zeta
    delta [Script1.build_ccr Script1.add_common_ccr_avps bind time_time ret] in H1.
  cbv beta iota zeta
    delta [Script2.build_ccr Script2.add_common_ccr_avps bind time_time ret
           lift] in H2.
  destruct (Script2.build_mscc Script2.DEFAULT_OCTETS u rr) as [m|e|];
    try discriminate.
  inversion H1; subst c1 w1. inversion H2; subst c2 w2. clear H1 H2.
  cbn [header set_header set_field add_subscription_id append_avp
       add_multiple_services_credit_control new_ccr
       sock wire clock ticks].
  unfold hop, e2e. rewrite <- !land_u32.
  repeat split; try reflexivity;
    rewrite land_u32; apply Z.mod_pos_bound; lia.
Qed.

(** A clock that shows a time before the epoch: the identifiers wrap. *)
Lemma build_ccr_identifiers_witness :
  option_map (fun c => getattr "hop_by_hop_identifier" (header c))
    (match fst (Script1.build_ccr Samples.whole_seconds 1 0 0
                  (mkWorld Samples.answering [] (fun _ => -1) 0)) with
     | Return c => Some c
     | _ => None
     end)
  = Some (Some (PInt 4294967295)).
Proof.
  set (w := mkWorld Samples.answering [] (fun _ => -1) 0%nat).
  destruct (Script1.build_ccr Samples.whole_seconds 1 0 0 w)
    as [[c1|e|] w1] eqn:H1;
    try (vm_compute in H1; discriminate).
  destruct (Script2.build_ccr Samples.whole_seconds "sid" 1 0 0 2 w)
    as [[c2|e|] w2] eqn:H2;
    try (vm_compute in H2; discriminate).
  destruct (build_ccr_identifiers Samples.whole_seconds "sid" 1 0 0 2
              w w1 w2 c1 c2 H1 H2) as (Hh & _).
  cbn [fst option_map]. rewrite Hh. reflexivity.
Defined.

(** What every request [build_ccr] of the first script makes carries. *)
Lemma built1_carries T t n u c :
  built1 T t n u c ->
  getattr "session_id" (fields c) = Some (PStr Script1.SESSION_ID)
  /\ getattr "application_id" (header c)
     = Some (PInt constants.APP_DIAMETER_CREDIT_CONTROL_APPLICATION)
  /\ subscription_id c
     = [(constants.E_SUBSCRIPTION_ID_TYPE_END_USER_E164, Script1.SUB_E164);
        (constants.E_SUBSCRIPTION_ID_TYPE_END_USER_IMSI, Script1.SUB_IMSI);
        (constants.E_SUBSCRIPTION_ID_TYPE_END_USER_NAI, Script1.SUB_NAI)].
Proof.
  intros (w & w' & H).
  cbv beta iota zeta
    delta [Script1.build_ccr Script1.add_common_ccr_avps bind time_time ret] in H.
  inversion H; subst. repeat split.
Qed.

Lemma build_ccr1_world (T : timing) (t n u : Z) (w : world) :
  exists c,
    Script1.build_ccr T t n u w
    = (Return c, mkWorld (sock w) (wire w) (clock w) (3 + ticks w))
    /\ built1 T t n u c.
Proof.
  cbv beta iota zeta
    delta [Script1.build_ccr Script1.add_common_ccr_avps bind time_time ret].
  eexists. split; [reflexivity|].
  exists w. eexists.
  cbv beta iota zeta
    delta [Script1.build_ccr Script1.add_common_ccr_avps bind time_time ret].
  reflexivity.
Qed.

(** Every request the first script has put on the wire is one [build_ccr]
    made. *)
Lemma main1_built T s clk n :
  Forall (fun c => exists t n u, built1 T t n u c)
         (ccrs (wire (snd (Script1.main T (mkWorld s [] clk n))))).
Proof.
  remember (Script1.main T (mkWorld s [] clk n)) as R eqn:HR.
  unfold Script1.main in HR.
  destruct (send_and_recv_run (SentCER Script1.build_cer) (mkWorld s [] clk n))
    as (r1 & w1 & H1 & Hne1 & Hw1 & _).
  rewrite (bind_eq _ _ _ _ _ H1) in HR. cbn [wire app] in Hw1.
  destruct r1 as [a1|e1|]; [| |contradiction].
  2:{ rewrite HR. cbn [snd]. rewrite Hw1. constructor. }
  destruct (build_ccr1_world T constants.E_CC_REQUEST_TYPE_INITIAL_REQUEST 0
              Script1.USED_I_TOTAL w1) as (ci & H2 & Hci).
  rewrite (bind_eq _ _ _ _ _ H2) in HR.
  match type of H2 with _ = (_, ?w) => set (w2 := w) in * end.
  destruct (send_and_recv_run (SentCCR ci) w2)
    as (r3 & w3 & H3 & Hne3 & Hw3 & _).
  rewrite (bind_eq _ _ _ _ _ H3) in HR.
  cbn [wire w2] in Hw3. rewrite Hw1 in Hw3. cbn [app] in Hw3.
  destruct r3 as [a3|e3|]; [| |contradiction].
  2:{ rewrite HR. cbn [snd]. rewrite Hw3. cbn. repeat constructor; eauto. }
  destruct (build_ccr1_world T constants.E_CC_REQUEST_TYPE_UPDATE_REQUEST 1
              Script1.USED_U_TOTAL w3) as (cu & H4 & Hcu).
  rewrite (bind_eq _ _ _ _ _ H4) in HR.
  match type of H4 with _ = (_, ?w) => set (w4 := w) in * end.
  destruct (send_and_recv_run (SentCCR cu) w4)
    as (r5 & w5 & H5 & Hne5 & Hw5 & _).
  rewrite (bind_eq _ _ _ _ _ H5) in HR.
  cbn [wire w4] in Hw5. rewrite Hw3 in Hw5. cbn [app] in Hw5.
  destruct r5 as [a5|e5|]; [| |contradiction].
  2:{ rewrite HR. cbn [snd]. rewrite Hw5. cbn. repeat constructor; eauto. }
  destruct (build_ccr1_world T constants.E_CC_REQUEST_TYPE_TERMINATION_REQUEST 2
              Script1.USED_T_TOTAL w5) as (ct & H6 & Hct).
  rewrite (bind_eq _ _ _ _ _ H6) in HR.
  match type of H6 with _ = (_, ?w) => set (w6 := w) in * end.
  destruct (send_and_recv_run (SentCCR ct) w6)
    as (r7 & w7 & H7 & Hne7 & Hw7 & _).
  rewrite (bind_eq _ _ _ _ _ H7) in HR.
  cbn [wire w6] in Hw7. rewrite Hw5 in Hw7. cbn [app] in Hw7.
  destruct r7 as [a7|e7|]; [| |contradiction]; rewrite HR; cbn [snd ret];
    rewrite Hw7; cbn; repeat constructor; eauto.
Qed.

(** X10. In every run of either script, all the requests that reach the wire
    belong to one session: each carries the script's Session-Id, the
    credit-control application id 4 in its header, and the same three
    Subscription-Ids, E.164, IMSI and NAI in that order. *)
Theorem requests_of_one_session
    (T : timing) (sid : string) (s : Framing.socket) (clk : nat -> Z)
    (n : nat) :
  Forall (fun c =>
            getattr "session_id" (fields c) = Some (PStr Script1.SESSION_ID)
            /\ getattr "application_id" (header c) = Some (PInt 4)
            /\ map fst (subscription_id c) = [0; 1; 3])
         (ccrs (wire (snd (Script1.main T (mkWorld s [] clk n)))))
  /\ Forall (fun c =>
               getattr "session_id" (fields c) = Some (PStr sid)
               /\ getattr "application_id" (header c) = Some (PInt 4)
               /\ map fst (subscription_id c) = [0; 1; 3])
            (ccrs (wire (snd (Script2.main T sid (mkWorld s [] clk n))))).
Proof.
  split.
  - eapply Forall_impl; [|apply main1_built].
    cbv beta. intros c (t & m & u & Hb).
    destruct (built1_carries _ _ _ _ _ Hb) as (H1 & H2 & H3).
    rewrite H1, H2, H3. repeat split.
  - destruct (main2_full T sid s clk n)
      as (b & why & ci & cu & ct & _ & _ & Hci & Hcu & Hct & Hw & _).
    rewrite Hw.
    assert (Hall : Forall (fun c =>
               getattr "session_id" (fields c) = Some (PStr sid)
               /\ getattr "application_id" (header c) = Some (PInt 4)
               /\ map fst (subscription_id c) = [0; 1; 3]) [ci; cu; ct]).
    { repeat constructor;
        match goal with
        | |- getattr _ (fields ?c) = _ =>
            match goal with H : built2 _ _ _ _ _ _ c |- _ =>
              apply (built2_carries _ _ _ _ _ _ _ H) end
        | |- getattr _ (header ?c) = _ =>
            match goal with H : built2 _ _ _ _ _ _ c |- _ =>
              apply (built2_carries _ _ _ _ _ _ _ H) end
        | |- map fst (subscription_id ?c) = _ =>
            match goal with H : built2 _ _ _ _ _ _ c |- _ =>
              destruct (built2_carries _ _ _ _ _ _ _ H)
                as (_ & _ & _ & _ & _ & _ & ->); reflexivity end
        end. }
    destruct (Frames.complete_frames 4 (Framing.delivered s)) as [|[|[|[|k]]]];
      cbn [Nat.min firstn ccrs flat_map app];
      inversion Hall as [|? ? Hi Hut]; subst;
      inversion Hut as [|? ? Hu Ht]; subst;
      inversion Ht as [|? ? Ht' _]; subst;
      repeat (apply Forall_cons; [assumption|]); apply Forall_nil.
Qed.

(** C9. The cumulative usage of the second script starts at 0, never
    decreases and never exceeds the default quota. The usage loop of [main]
    returns, and what it returns is the last of the values [used_total]
    takes over the passes it makes, one for each reading of the clock; over
    any passes these values begin with the value the loop is entered with,
    0 in [main], are sorted and stay within [DEFAULT_OCTETS]; a pass that
    updates [used_total] assigns
    [min(DEFAULT_OCTETS, used_total + SIM_STEP_BYTES)], which is not below
    the old value; and the usage a returning run of [main] reports is the
    last of the values over the readings the loop made, the fifth reading of
    the run onwards, measured against the first. *)
Theorem used_total_non_decreasing (T : timing) :
  (forall start w,
     exists u why w',
       Script2.usage_loop T Script2.usage_fuel start 0 w = (Return (u, why), w'))
  /\ (forall fuel start used w u why w',
        Script2.usage_loop T fuel start used w = (Return (u, why), w') ->
        u = last (Script2.usage_values
                    (Script2.elapsed_readings T fuel start w) used) used
        /\ (used <= Script2.DEFAULT_OCTETS ->
            used <= u <= Script2.DEFAULT_OCTETS))
  /\ (forall elapsed used,
        used <= Script2.DEFAULT_OCTETS ->
        hd_error (Script2.usage_values elapsed used) = Some used
        /\ Sorted Z.le (Script2.usage_values elapsed used)
        /\ Forall (fun v => used <= v <= Script2.DEFAULT_OCTETS)
                  (Script2.usage_values elapsed used))
  /\ (forall elapsed used used',
        Script2.usage_step elapsed used = inr used' ->
        used' = Z.min Script2.DEFAULT_OCTETS (used + Script2.SIM_STEP_BYTES)
        /\ used <= used' <= Script2.DEFAULT_OCTETS)
  /\ (forall sid s clk n u why,
        fst (Script2.main T sid (mkWorld s [] clk n)) = Return (u, why) ->
        0 <= u <= Script2.DEFAULT_OCTETS
        /\ u = last (Script2.usage_values
                       (map (fun i => Script2.elapsed_seconds T
                                        (clk (n + 4 + i)%nat) (clk n))
                            (seq 0 Script2.usage_fuel)) 0) 0).
Proof.
  assert (H0 : 0 <= Script2.DEFAULT_OCTETS) by (vm_compute; discriminate).
  assert (Hlast : forall elapsed used,
            used <= Script2.DEFAULT_OCTETS ->
            used <= last (Script2.usage_values elapsed used) used
                 <= Script2.DEFAULT_OCTETS).
  { intros elapsed used Hu.
    apply (Forall_last (fun v => used <= v <= Script2.DEFAULT_OCTETS)).
    - apply usage_values_monotone, Hu.
    - destruct (usage_values_head elapsed used) as [tl ->]. discriminate. }
  split; [|split; [|split; [|split]]].
  - intros start w.
    destruct (usage_loop_from_zero T start w) as (b & why & _ & Hl & _).
    eauto.
  - intros fuel start used w u why w' Hl.
    pose proof (usage_loop_trace T _ _ _ _ _ _ _ Hl) as Hu.
    split; [exact Hu|]. intros Hle. rewrite Hu. apply Hlast, Hle.
  - intros elapsed used Hu.
    destruct (usage_values_head elapsed used) as [tl Htl].
    destruct (usage_values_monotone elapsed used Hu) as [Hs Hf].
    split; [now rewrite Htl | now split].
  - intros elapsed used used' Hstep.
    apply usage_step_continue in Hstep. destruct Hstep as (Heq & Hlt & _).
    split; [exact Heq|]. unfold Script2.SIM_STEP_BYTES in Heq. lia.
  - intros sid s clk n u why Hr.
    destruct (main2_full T sid s clk n)
      as (b & why' & ci & cu & ct & _ & _ & _ & _ & _ & _ & Hret & Hraise
          & Htr).
    destruct (Nat.eq_dec (Frames.complete_frames 4 (Framing.delivered s)) 4)
      as [Heq|Hne].
    2:{ pose proof (complete_frames_le 4 (Framing.delivered s)).
        destruct Hraise as [msg Hm]; [lia | congruence]. }
    rewrite (Hret Heq) in Hr. inversion Hr; subst u why'.
    rewrite (Htr Heq). split; [apply Hlast, H0 | reflexivity].
Qed.

(** Three passes from 0, one step, the loop under a clock that stands
    still, and a whole run. *)
Lemma used_total_non_decreasing_witness :
  Script2.usage_values [0; 1; 2] 0 = [0; 51200; 102400; 153600]
  /\ 0 <= 51200 <= Script2.DEFAULT_OCTETS
  /\ 0 <= 512000 <= Script2.DEFAULT_OCTETS
  /\ 0 <= 512000 <= Script2.DEFAULT_OCTETS.
Proof.
  destruct (used_total_non_decreasing Samples.whole_seconds)
    as (_ & Hloop & _ & Hstep & Hrun).
  split; [reflexivity|]. split; [|split].
  - destruct (Hstep 0 0 51200) as [_ H]; [reflexivity | exact H].
  - destruct (Hloop Script2.usage_fuel 0 0 Samples.world_fast 512000
                Script2.QuotaExhausted
                (mkWorld Samples.answering [] (fun _ => 0) 11%nat))
      as [_ H]; [vm_compute; reflexivity|].
    apply H. vm_compute. discriminate.
  - destruct (Hrun "sid"%string Samples.answering (fun _ : nat => 0) 0%nat
                512000 Script2.QuotaExhausted) as [H _];
      [vm_compute; reflexivity | exact H].
Defined.

End GyMore.

(** ** The hexadecimal dump *)

Section HexdumpProofs.
Import Hexdump.

Lemma list_ascii_of_string_append (s1 s2 : string) :
  list_ascii_of_string (String.append s1 s2)
  = list_ascii_of_string s1 ++ list_ascii_of_string s2.
Proof. induction s1 as [|c s1 IH]; cbn; [reflexivity | now rewrite IH]. Qed.

Lemma all_chars_append P s1 s2 :
  all_chars P s1 -> all_chars P s2 -> all_chars P (String.append s1 s2).
Proof.
  unfold all_chars. rewrite list_ascii_of_string_append.
  intros H1 H2. apply Forall_app. now split.
Qed.

Lemma all_chars_repeat P c k : P c -> all_chars P (repeat_char c k).
Proof.
  intros H. induction k as [|k IH]; cbn; constructor; assumption.
Qed.

Lemma all_chars_impl (P Q : Ascii.ascii -> Prop) s :
  (forall c, P c -> Q c) -> all_chars P s -> all_chars Q s.
Proof. intros H. apply Forall_impl. exact H. Qed.

Lemma length_append (s1 s2 : string) :
  String.length (String.append s1 s2) = (String.length s1 + String.length s2)%nat.
Proof. induction s1 as [|c s1 IH]; cbn; [reflexivity | now rewrite IH]. Qed.

Lemma length_repeat_char c k : String.length (repeat_char c k) = k.
Proof. induction k as [|k IH]; cbn; [reflexivity | now rewrite IH]. Qed.

Lemma append_assoc (s1 s2 s3 : string) :
  String.append (String.append s1 s2) s3 = String.append s1 (String.append s2 s3).
Proof. induction s1 as [|c s1 IH]; cbn; [reflexivity | now rewrite IH]. Qed.

Lemma hex_digit_char (n : N) : digit_char (hex_digit n).
Proof.
  unfold hex_digit, digit_char, printable_char.
  destruct n as [|p]; [cbn; split; [lia | discriminate]|].
  do 5 (try destruct p as [p|p|]); cbn; (split; [lia | discriminate]).
Qed.

Lemma hex_digits_chars fuel : forall n, all_chars digit_char (hex_digits fuel n).
Proof.
  induction fuel as [|fuel IH]; intros n; cbn [hex_digits]; [constructor|].
  destruct (n <? 16)%N.
  - repeat constructor; apply hex_digit_char.
  - apply all_chars_append; [apply IH|].
    repeat constructor; apply hex_digit_char.
Qed.

Lemma format_04x_chars (i : nat) : all_chars digit_char (format_04x i).
Proof.
  unfold format_04x. apply all_chars_append.
  - apply all_chars_repeat. split; [unfold printable_char; cbn; lia | discriminate].
  - apply hex_digits_chars.
Qed.

Lemma printable_is_printable (x : byte) : printable_char (printable x).
Proof.
  unfold printable, printable_char.
  destruct ((32 <=? Byte.to_N x) && (Byte.to_N x <? 127))%N eqn:H.
  - apply andb_true_iff in H. destruct H as [H1 H2].
    apply N.leb_le in H1. apply N.ltb_lt in H2.
    rewrite Ascii.ascii_of_byte_via_N, Ascii.N_ascii_embedding by lia. lia.
  - cbn. lia.
Qed.

Lemma asc_chars (chunk : bytes) : all_chars printable_char (asc chunk).
Proof.
  unfold asc, all_chars. rewrite list_ascii_of_string_of_list_ascii.
  apply Forall_map, Forall_forall. intros x _. apply printable_is_printable.
Qed.

Lemma length_asc (chunk : bytes) : String.length (asc chunk) = length chunk.
Proof.
  unfold asc. induction chunk as [|x chunk IH]; cbn; [reflexivity|].
  now rewrite IH.
Qed.

Lemma space_printable : printable_char " "%char.
Proof. unfold printable_char. cbn. lia. Qed.

Lemma format_02x_chars (x : byte) : all_chars printable_char (format_02x x).
Proof.
  unfold format_02x. repeat constructor; apply hex_digit_char.
Qed.

(** The hexadecimal column of a chunk with one more byte in front. *)
Lemma hx_cons (x y : byte) (chunk : bytes) :
  hx (x :: y :: chunk)
  = String.append (format_02x x) (String " " (hx (y :: chunk))).
Proof. reflexivity. Qed.

Lemma hx_chars (chunk : bytes) : all_chars printable_char (hx chunk).
Proof.
  induction chunk as [|x [|y chunk] IH].
  - constructor.
  - apply format_02x_chars.
  - rewrite hx_cons. apply all_chars_append; [apply format_02x_chars|].
    constructor; [apply space_printable | exact IH].
Qed.

Lemma length_hx (chunk : bytes) :
  String.length (hx chunk) = (3 * length chunk - 1)%nat.
Proof.
  induction chunk as [|x [|y chunk] IH]; [reflexivity | reflexivity|].
  rewrite hx_cons, length_append. cbn [String.length format_02x].
  rewrite IH. cbn [length]. lia.
Qed.

Lemma line_chars (width i : nat) (chunk : bytes) :
  all_chars printable_char (line width i chunk).
Proof.
  assert (Hsp : all_chars printable_char "  ")
    by (repeat constructor; apply space_printable).
  unfold line, ljust.
  apply all_chars_append.
  { eapply all_chars_impl; [|apply format_04x_chars]. intros c [Hc _]. exact Hc. }
  apply all_chars_append; [exact Hsp|].
  apply all_chars_append.
  { apply all_chars_append; [apply hx_chars|].
    apply all_chars_repeat, space_printable. }
  apply all_chars_append; [exact Hsp | apply asc_chars].
Qed.

Lemma byte_of_hex_format (x : byte) :
  byte_of_hex (hex_digit (Byte.to_N x / 16)) (hex_digit (Byte.to_N x mod 16))
  = Some x.
Proof. destruct x; reflexivity. Qed.

Lemma unhex_space (t : string) : unhex (String " " t) = [].
Proof. destruct t; reflexivity. Qed.

Lemma unhex_pair (a b : Ascii.ascii) (rest : string) :
  unhex (String a (String b rest))
  = match byte_of_hex a b with
    | Some x => x :: match rest with
                     | String " " rest' => unhex rest'
                     | _ => []
                     end
    | None => []
    end.
Proof. reflexivity. Qed.

(** The bytes of a hexadecimal column are read back whatever follows it
    after two spaces. *)
Lemma unhex_hx (chunk : bytes) (t : string) :
  unhex (String.append (hx chunk) (String " " (String " " t))) = chunk.
Proof.
  induction chunk as [|x [|y chunk] IH].
  - reflexivity.
  - change (hx [x]) with (format_02x x). unfold format_02x.
    cbn [String.append]. rewrite unhex_pair, byte_of_hex_format.
    cbv beta iota. now rewrite unhex_space.
  - rewrite hx_cons, append_assoc. unfold format_02x at 1.
    cbn [String.append]. rewrite unhex_pair, byte_of_hex_format.
    cbv beta iota. f_equal. exact IH.
Qed.

Lemma after_offset_digits (s rest : string) :
  all_chars digit_char s ->
  after_offset (String.append s (String " " (String " " rest))) = rest.
Proof.
  induction s as [|c s IH]; intros H; [reflexivity|].
  inversion H as [|? ? [_ Hc] Hs]; subst.
  cbn [String.append].
  transitivity (after_offset (String.append s (String " " (String " " rest))));
    [|apply IH; exact Hs].
  destruct c as [[] [] [] [] [] [] [] []]; try reflexivity.
  contradiction Hc. reflexivity.
Qed.

Lemma repeat_two_spaces (k : nat) (t : string) :
  exists t', String.append (repeat_char " " k) (String " " (String " " t))
             = String " " (String " " t').
Proof.
  induction k as [|k [t' Ht']]; [exists t; reflexivity|].
  cbn [repeat_char String.append]. rewrite Ht'. eexists. reflexivity.
Qed.

Lemma ljust_two_spaces (w : nat) (s t : string) :
  exists t', String.append (ljust w s) (String " " (String " " t))
             = String.append s (String " " (String " " t')).
Proof.
  unfold ljust. rewrite append_assoc.
  destruct (repeat_two_spaces (w - String.length s) t) as [t' Ht'].
  exists t'. now rewrite Ht'.
Qed.

(** A line gives back the bytes of its chunk. *)
Lemma line_bytes_line (width i : nat) (chunk : bytes) :
  line_bytes (line width i chunk) = chunk.
Proof.
  unfold line_bytes, line. cbn [String.append].
  change (String.append "  " ?x) with (String " " (String " " x)).
  rewrite after_offset_digits by apply format_04x_chars.
  destruct (ljust_two_spaces (width * 3) (hx chunk) (asc chunk)) as [t' Ht'].
  change (String.append "  " (asc chunk))
    with (String " " (String " " (asc chunk))).
  rewrite Ht'. apply unhex_hx.
Qed.

Lemma printable_not_nl (c : Ascii.ascii) : printable_char c -> c <> nl.
Proof. intros H ->. unfold printable_char in H. cbn in H. lia. Qed.

Lemma split_lines_from_line (l : string) : forall cur,
  all_chars (fun c => c <> nl) l ->
  split_lines_from cur l = [cur l].
Proof.
  induction l as [|c l IH]; intros cur H; [reflexivity|].
  inversion H as [|? ? Hc Hl]; subst. cbn [split_lines_from].
  fold nl. destruct (Ascii.eqb_spec c nl) as [|_]; [contradiction|].
  now rewrite IH.
Qed.

Lemma split_lines_from_more (l rest : string) : forall cur,
  all_chars (fun c => c <> nl) l ->
  split_lines_from cur (String.append l (String nl rest))
  = cur l :: split_lines_from (fun x => x) rest.
Proof.
  induction l as [|c l IH]; intros cur H.
  - cbn [String.append split_lines_from]. fold nl.
    now rewrite Ascii.eqb_refl.
  - inversion H as [|? ? Hc Hl]; subst. cbn [String.append split_lines_from].
    fold nl. destruct (Ascii.eqb_spec c nl) as [|_]; [contradiction|].
    now rewrite IH.
Qed.

Lemma split_lines_from_concat (ls : list string) : forall l,
  Forall (all_chars (fun c => c <> nl)) (l :: ls) ->
  split_lines_from (fun x => x) (String.concat newline (l :: ls)) = l :: ls.
Proof.
  induction ls as [|l2 ls IH]; intros l H; inversion H as [|? ? Hl Hls]; subst.
  - cbn [String.concat]. now apply split_lines_from_line.
  - change (String.concat newline (l :: l2 :: ls))
      with (String.append l (String nl (String.concat newline (l2 :: ls)))).
    rewrite split_lines_from_more by assumption. f_equal. now apply IH.
Qed.

(** Text lines without a line break in them, none of them empty, are what
    joining them with line breaks splits back into. *)
Lemma split_lines_concat (ls : list string) :
  Forall (all_chars (fun c => c <> nl)) ls ->
  Forall (fun l => l <> EmptyString) ls ->
  split_lines (String.concat newline ls) = ls.
Proof.
  intros Hnl Hne. destruct ls as [|l ls]; [reflexivity|].
  transitivity (split_lines_from (fun x => x) (String.concat newline (l :: ls)));
    [|now apply split_lines_from_concat].
  inversion Hne as [|? ? Hl _]; subst.
  destruct l as [|c l]; [contradiction|].
  destruct ls; reflexivity.
Qed.

Lemma firstn_plus {A} (a c : nat) : forall l : list A,
  firstn (a + c) l = firstn a l ++ firstn c (skipn a l).
Proof.
  induction a as [|a IH]; intros l; [reflexivity|].
  destruct l as [|x l]; cbn; [now rewrite firstn_nil | now rewrite IH].
Qed.

Lemma chunks_upto (b : bytes) (width n : nat) :
  concat (map (fun i => slice i (i + width) b)
              (map (fun k => (k * width)%nat) (seq 0 n)))
  = firstn (n * width) b.
Proof.
  induction n as [|n IH]; [reflexivity|].
  rewrite seq_S, !map_app, concat_app, IH. cbn [map concat seq Nat.add].
  rewrite app_nil_r. unfold slice.
  replace (n * width + width - n * width)%nat with width by lia.
  replace (S n * width)%nat with (n * width + width)%nat by lia.
  now rewrite firstn_plus.
Qed.

(** The loop cuts the bytes into chunks that put together are the bytes. *)
Lemma concat_chunks (b : bytes) (width : nat) :
  (0 < width)%nat -> concat (chunks b width) = b.
Proof.
  intros Hw. unfold chunks, range_step. rewrite chunks_upto.
  apply firstn_all2.
  pose proof (Nat.div_mod (length b + width - 1) width ltac:(lia)) as Hd.
  pose proof (Nat.mod_upper_bound (length b + width - 1) width ltac:(lia)) as Hm.
  nia.
Qed.

Lemma hexdump_lines_chunks (b : bytes) (width : nat) :
  hexdump_lines b width
  = map (fun i => line width i (slice i (i + width) b))
        (range_step (length b) width)
  /\ flat_map line_bytes (hexdump_lines b width) = concat (chunks b width).
Proof.
  split; [reflexivity|]. unfold hexdump_lines, chunks.
  rewrite flat_map_concat_map, map_map. f_equal.
  apply map_ext. intros i. apply line_bytes_line.
Qed.

Lemma line_not_empty (width i : nat) (chunk : bytes) :
  line width i chunk <> EmptyString.
Proof.
  unfold line. destruct (format_04x i); discriminate.
Qed.

Lemma undump_hexdump (b : bytes) (width : Z) :
  0 < width ->
  undump (hexdump b width) = Some b.
Proof.
  intros Hw. unfold hexdump.
  destruct (Z.eqb_spec width 0) as [|_]; [lia|].
  destruct (Z.ltb_spec width 0) as [|_]; [lia|].
  cbn [undump]. f_equal.
  rewrite split_lines_concat.
  - destruct (hexdump_lines_chunks b (Z.to_nat width)) as [_ ->].
    apply concat_chunks. lia.
  - unfold hexdump_lines. apply Forall_map, Forall_forall. intros i _.
    eapply all_chars_impl; [|apply line_chars].
    intros c. apply printable_not_nl.
  - unfold hexdump_lines. apply Forall_map, Forall_forall. intros i _.
    apply line_not_empty.
Qed.

(** X11. For every positive width the dump can be read back: the
    hexadecimal columns of its lines, in order, are the bytes dumped. *)
Theorem hexdump_round_trip (b : bytes) (width : Z) :
  0 < width ->
  undump (hexdump b width) = Some b.
Proof. apply undump_hexdump. Qed.

Lemma hexdump_round_trip_witness :
  hexdump [x41; x20; x0a; xff; x7e] 2
  = Dump (String.append "0000  41 20   A "
            (String.append newline
               (String.append "0002  0a ff   .."
                  (String.append newline "0004  7e      ~"))))
  /\ undump (hexdump [x41; x20; x0a; xff; x7e] 2)
     = Some [x41; x20; x0a; xff; x7e].
Proof.
  split; [reflexivity|]. apply hexdump_round_trip. lia.
Defined.

(** X12. With a positive width, different bytes never have the same dump;
    with a width of zero there is no dump but a [ValueError], and with a
    negative width the dump is empty whatever the bytes. *)
Theorem hexdump_injective (b1 b2 : bytes) (width : Z) :
  (0 < width -> hexdump b1 width = hexdump b2 width -> b1 = b2)
  /\ (width = 0 -> hexdump b1 width = ValueError)
  /\ (width < 0 -> hexdump b1 width = Dump EmptyString).
Proof.
  split; [|split].
  - intros Hw Heq.
    pose proof (undump_hexdump b1 width Hw) as H1.
    pose proof (undump_hexdump b2 width Hw) as H2.
    rewrite Heq in H1. congruence.
  - intros ->. reflexivity.
  - intros Hw. unfold hexdump.
    destruct (Z.eqb_spec width 0) as [|_]; [lia|].
    destruct (Z.ltb_spec width 0) as [_|]; [reflexivity | lia].
Qed.

Lemma hexdump_injective_witness :
  hexdump [x41] 16 <> hexdump [x42] 16
  /\ hexdump [x41] 0 = ValueError
  /\ hexdump [x41] (-1) = Dump EmptyString.
Proof.
  destruct (hexdump_injective [x41] [x42] 16) as (Hinj & _).
  destruct (hexdump_injective [x41] [x42] 0) as (_ & Hzero & _).
  destruct (hexdump_injective [x41] [x42] (-1)) as (_ & _ & Hneg).
  split; [|split].
  - intros Heq. specialize (Hinj ltac:(lia) Heq). discriminate.
  - apply Hzero. reflexivity.
  - apply Hneg. lia.
Defined.

Lemma all_chars_concat (P : Ascii.ascii -> Prop) (sep : string) (ls : list string) :
  all_chars P sep -> Forall (all_chars P) ls ->
  all_chars P (String.concat sep ls).
Proof.
  intros Hsep. induction 1 as [|l ls Hl Hls IH]; [constructor|].
  destruct ls as [|l2 ls]; [exact Hl|].
  change (String.concat sep (l :: l2 :: ls))
    with (String.append l (String.append sep (String.concat sep (l2 :: ls)))).
  repeat apply all_chars_append; assumption.
Qed.

(** X13. Whatever the bytes, a dump holds nothing but printable ASCII
    characters (space to tilde) and line breaks: bytes outside that range
    show as a dot in the text column. *)
Theorem hexdump_printable (b : bytes) (width : Z) (s : string) :
  hexdump b width = Dump s ->
  all_chars (fun c => printable_char c \/ c = nl) s.
Proof.
  unfold hexdump.
  destruct (width =? 0); [discriminate|].
  destruct (width <? 0); intros H; inversion H; subst; [constructor|].
  apply all_chars_concat.
  - constructor; [right; reflexivity | constructor].
  - unfold hexdump_lines. apply Forall_map, Forall_forall. intros i _.
    eapply all_chars_impl; [|apply line_chars]. intros c Hc. now left.
Qed.

Lemma hexdump_printable_witness :
  all_chars (fun c => printable_char c \/ c = nl)
    (String.append "0000  0a   ."
       (String.append newline "0001  ff   .")).
Proof.
  apply (hexdump_printable [x0a; xff] 1). reflexivity.
Defined.

Lemma length_hex_digits fuel : forall n k,
  (n < 16 ^ N.of_nat k)%N -> (1 <= k)%nat ->
  (String.length (hex_digits fuel n) <= k)%nat.
Proof.
  induction fuel as [|fuel IH]; intros n k Hn Hk; cbn [hex_digits];
    [cbn; lia|].
  destruct (N.ltb_spec n 16) as [Hlt|Hge]; [cbn; lia|].
  rewrite length_append. cbn [String.length].
  destruct k as [|[|k]]; [lia| |].
  - change (16 ^ N.of_nat 1)%N with 16%N in Hn. lia.
  - assert (Hdiv : (n / 16 < 16 ^ N.of_nat (S k))%N).
    { apply N.Div0.div_lt_upper_bound.
      replace (N.of_nat (S (S k))) with (N.succ (N.of_nat (S k))) in Hn by lia.
      rewrite N.pow_succ_r' in Hn. exact Hn. }
    specialize (IH (n / 16)%N (S k) Hdiv ltac:(lia)). lia.
Qed.

(** Offsets below 65536 take exactly four digits. *)
Lemma length_format_04x (i : nat) :
  Z.of_nat i < 65536 -> String.length (format_04x i) = 4%nat.
Proof.
  intros Hi. unfold format_04x, format_x.
  rewrite length_append, length_repeat_char.
  pose proof (length_hex_digits (S (N.size_nat (N.of_nat i))) (N.of_nat i) 4)
    as H.
  change (16 ^ N.of_nat 4)%N with 65536%N in H.
  specialize (H ltac:(lia) ltac:(lia)). lia.
Qed.

Lemma length_slice {A} (i j : nat) (l : list A) :
  length (slice i j l) = Nat.min (j - i) (length l - i).
Proof. unfold slice. now rewrite length_firstn, length_skipn. Qed.

Lemma range_step_in (stop step i : nat) :
  (0 < step)%nat -> In i (range_step stop step) -> (i < stop)%nat.
Proof.
  intros Hs Hin. unfold range_step in Hin.
  apply in_map_iff in Hin. destruct Hin as (k & <- & Hk).
  apply in_seq in Hk.
  pose proof (Nat.div_mod (stop + step - 1) step ltac:(lia)) as Hd.
  pose proof (Nat.mod_upper_bound (stop + step - 1) step ltac:(lia)) as Hm.
  nia.
Qed.

Lemma Forall2_maps {A B C} (P : B -> C -> Prop) (f : A -> B) (g : A -> C) l :
  Forall (fun a => P (f a) (g a)) l -> Forall2 P (map f l) (map g l).
Proof. induction 1; cbn; constructor; assumption. Qed.

(** X14. For a positive width and at most 65536 bytes, the dump has one line
    per chunk of [width] bytes (the last one may be shorter, none is empty),
    and in every line the text column starts at the same place, after
    [8 + 3 * width] characters, and has one character per byte of the
    chunk. *)
Theorem hexdump_layout (b : bytes) (width : nat) :
  (0 < width)%nat ->
  len b <= 65536 ->
  length (hexdump_lines b width) = ((length b + width - 1) / width)%nat
  /\ Forall2 (fun l chunk =>
                (1 <= length chunk <= width)%nat
                /\ exists prefix,
                     l = String.append prefix (asc chunk)
                     /\ String.length prefix = (8 + 3 * width)%nat
                     /\ String.length (asc chunk) = length chunk)
             (hexdump_lines b width) (chunks b width).
Proof.
  intros Hw Hlen. split.
  { unfold hexdump_lines, range_step. now rewrite !length_map, length_seq. }
  unfold hexdump_lines, chunks. apply Forall2_maps, Forall_forall.
  intros i Hi. apply (range_step_in _ _ _ Hw) in Hi.
  set (chunk := slice i (i + width) b).
  assert (Hc : (1 <= length chunk <= width)%nat).
  { unfold chunk. rewrite length_slice. lia. }
  split; [exact Hc|].
  exists (String.append (format_04x i)
            (String.append "  "
               (String.append (ljust (width * 3) (hx chunk)) "  "))).
  split; [|split].
  - unfold line. now rewrite !append_assoc.
  - rewrite !length_append, length_format_04x by (unfold len in Hlen; lia).
    unfold ljust. rewrite length_append, length_repeat_char, length_hx.
    cbn [String.length]. lia.
  - apply length_asc.
Qed.

Lemma hexdump_layout_witness :
  hexdump_lines [x41; x20; x0a; xff; x7e] 2
  = ["0000  41 20   A "%string; "0002  0a ff   .."%string;
     "0004  7e      ~"%string]
  /\ length (hexdump_lines [x41; x20; x0a; xff; x7e] 2) = 3%nat.
Proof.
  split; [reflexivity|].
  destruct (hexdump_layout [x41; x20; x0a; xff; x7e] 2) as [H _];
    [lia | vm_compute; discriminate | exact H].
Defined.

End HexdumpProofs.
